(** * Inertial-property estimation for the Shadow Hand model

    A shallow embedding of [scripts/estimate_inertial_properties.py] and the
    properties of its volume bookkeeping, density redistribution, error
    behaviour and output document.

    Python floats are modelled by exact rationals ([Q]); the mesh library
    ([trimesh]) and the document library ([pcg_gazebo]) are modelled by the
    few operations the script calls on them.  The script's console output,
    directory listing, mesh loads and the file export are recorded as a
    trace of events, and an uncaught Python exception ends the run. *)

From Stdlib Require Import Ascii QArith Lqa.
From stdpp Require Import base option list sorting strings gmap.

Set Default Proof Using "Type".

(** ** Python strings *)

Module PyStr.

(** [sub in s] for Python strings. *)
Fixpoint contains (sub s : string) : bool :=
  String.prefix sub s ||
  match s with
  | EmptyString => false
  | String _ s' => contains sub s'
  end.

(** [p.rfind('.')]: the index of the last dot, if any. *)
Fixpoint rfind_dot (p : string) : option nat :=
  match p with
  | EmptyString => None
  | String c r =>
      match rfind_dot r with
      | Some i => Some (S i)
      | None => if Ascii.eqb c "."%char then Some 0%nat else None
      end
  end.

(** Are the first [n] characters of [p] all dots?  ([os.path.splitext]
    skips leading dots: a name such as [".hidden"] has no extension.) *)
Fixpoint leading_dots (n : nat) (p : string) : bool :=
  match n, p with
  | O, _ => true
  | S n', String c r => Ascii.eqb c "."%char && leading_dots n' r
  | S _, EmptyString => true
  end.

(** [os.path.splitext(p)[0]] on a base name (a directory entry holds no
    path separator): everything before the last dot, unless only dots
    precede it. *)
Definition splitext_root (p : string) : string :=
  match rfind_dot p with
  | Some i => if leading_dots i p then p else String.substring 0 i p
  | None => p
  end.

(** [list.sort()] on strings: code-point order, which is a total order,
    so every correct sort returns the same list. *)
Definition sort (l : list string) : list string := merge_sort String.le l.

End PyStr.

(** ** Python dictionaries

    A [dict] keeps its keys in first-insertion order; assigning to a key
    that is present replaces the value in place. *)

Module Dict.

Abbreviation t V := (list (string * V)).

Definition empty {V} : t V := [].

(** [d[k]] *)
Fixpoint get {V} (k : string) (d : t V) : option V :=
  match d with
  | [] => None
  | (k', v) :: d' => if String.eqb k k' then Some v else get k d'
  end.

(** [d[k] = v] *)
Fixpoint set {V} (k : string) (v : V) (d : t V) : t V :=
  match d with
  | [] => [(k, v)]
  | (k', v') :: d' =>
      if String.eqb k k' then (k, v) :: d' else (k', v') :: set k v d'
  end.

(** The keys, in iteration order. *)
Definition keys {V} (d : t V) : list string := d.*1.

End Dict.

(** ** The mesh service

    What the script reads from a loaded mesh.  The mass is density times
    volume and the inertia tensor scales linearly with the density; the
    centre of mass does not depend on it. *)

Module Trimesh.

Definition vec3 : Type := Q * Q * Q.
Definition mat3 : Type := vec3 * vec3 * vec3.

Record t : Type := Mesh {
  volume : Q;
  density : Q;
  center_mass : vec3;
  unit_inertia : mat3   (* the inertia tensor at density 1 *)
}.

Definition set_density (d : Q) (m : t) : t :=
  {| volume := volume m; density := d;
     center_mass := center_mass m; unit_inertia := unit_inertia m |}.

Definition scale3 (c : Q) (v : vec3) : vec3 :=
  let '(a, b, d) := v in (c * a, c * b, c * d)%Q.

Definition mass (m : t) : Q := (density m * volume m)%Q.

Definition moment_inertia (m : t) : mat3 :=
  let '(r0, r1, r2) := unit_inertia m in
  (scale3 (density m) r0, scale3 (density m) r1, scale3 (density m) r2).

End Trimesh.

(** ** The robot-description document *)

Module Sdf.

Record Inertia : Type := MkInertia {
  ixx : Q; iyy : Q; izz : Q; ixy : Q; ixz : Q; iyz : Q
}.

Record Link : Type := MkLink {
  mass : Q;
  inertia : Inertia;
  pose : list Q
}.

Record Model : Type := MkModel {
  model_name : string;
  links : list (string * Link)
}.

Record SDF : Type := MkSDF { models : list Model }.

(** [SDF()] *)
Definition new : SDF := {| models := [] |}.

(** [sdf.add_model(name=...)] *)
Definition add_model (name : string) (sdf : SDF) : SDF :=
  {| models := models sdf ++ [ {| model_name := name; links := [] |} ] |}.

(** [create_sdf_element('link')]: a link whose fields are still at their
    defaults.  The setters below are plain assignments: a check that the
    document library makes on the value it is given is not modelled. *)
Definition create_link : Link :=
  {| mass := 0;
     inertia := MkInertia 0 0 0 0 0 0;
     pose := [0; 0; 0; 0; 0; 0]%Q |}.

Definition set_mass (x : Q) (l : Link) : Link :=
  {| mass := x; inertia := inertia l; pose := pose l |}.
Definition set_inertia (f : Inertia → Inertia) (l : Link) : Link :=
  {| mass := mass l; inertia := f (inertia l); pose := pose l |}.
Definition set_ixx (x : Q) (i : Inertia) : Inertia :=
  MkInertia x (iyy i) (izz i) (ixy i) (ixz i) (iyz i).
Definition set_iyy (x : Q) (i : Inertia) : Inertia :=
  MkInertia (ixx i) x (izz i) (ixy i) (ixz i) (iyz i).
Definition set_izz (x : Q) (i : Inertia) : Inertia :=
  MkInertia (ixx i) (iyy i) x (ixy i) (ixz i) (iyz i).
Definition set_ixy (x : Q) (i : Inertia) : Inertia :=
  MkInertia (ixx i) (iyy i) (izz i) x (ixz i) (iyz i).
Definition set_ixz (x : Q) (i : Inertia) : Inertia :=
  MkInertia (ixx i) (iyy i) (izz i) (ixy i) x (iyz i).
Definition set_iyz (x : Q) (i : Inertia) : Inertia :=
  MkInertia (ixx i) (iyy i) (izz i) (ixy i) (ixz i) x.
Definition set_pose (p : list Q) (l : Link) : Link :=
  {| mass := mass l; inertia := inertia l; pose := p |}.

(** [model.add_link(link_name, link)] *)
Definition add_link (name : string) (l : Link) (m : Model) : Model :=
  {| model_name := model_name m; links := links m ++ [(name, l)] |}.

End Sdf.

(** ** Runs: a trace of observable events and a result or an exception *)

Inductive message : Type :=
  | MsgUsageError                               (* line 23 *)
  | MsgEstimating (total_mass : Q)              (* line 25 *)
  | MsgVolume (link_name : string) (v : Q)      (* line 49 *)
  | MsgNote (link_name : string)                (* line 52 *)
  | MsgAverageDensity (d : Q)                   (* line 60 *)
  | MsgTotalMass (m : Q)                        (* line 91 *)
  | MsgWritten (file : string).                 (* line 112 *)

Inductive event : Type :=
  | Print (msg : message)
  | Listdir
  | Load (basename : string)
  | ExportXml (file : string) (doc : Sdf.SDF).

(** The divisions of the script. *)
Inductive div_site : Type :=
  | AverageDensity        (* line 59: total_mass/total_volume *)
  | ForearmProportion     (* line 63: forearm_volume/total_volume *)
  | RedistributionFactor. (* line 75: percentage/other_links_proportion *)

Inductive exn : Type :=
  | SystemExit (status : Z)
  | ValueError
  | OSError
  | LoadError (basename : string)
  | ZeroDivisionError (site : div_site)
  | UnboundLocalError (var : string)
  | KeyError (key : string)
  | IndexError.

Definition M (A : Type) : Type := list event * (exn + A).

Definition M_ret {A} (a : A) : M A := ([], inr a).

Definition M_bind {A B} (k : A → M B) (m : M A) : M B :=
  match m with
  | (t, inl e) => (t, inl e)
  | (t, inr a) => let '(t', r) := k a in (t ++ t', r)
  end.

#[global] Instance M_mret : MRet M := @M_ret.
#[global] Instance M_mbind : MBind M := @M_bind.

Definition raise {A} (e : exn) : M A := ([], inl e).
Definition emit (ev : event) : M unit := ([ev], inr tt).
Definition print (msg : message) : M unit := emit (Print msg).

(** A [for] loop whose body updates the local variables [s]. *)
Fixpoint for_each {A S} (l : list A) (body : A → S → M S) (s : S) : M S :=
  match l with
  | [] => mret s
  | x :: l' => s' ← body x s; for_each l' body s'
  end.

(** [d[k]] on a dict, raising [KeyError]. *)
Definition getitem {V} (d : Dict.t V) (k : string) : M V :=
  match Dict.get k d with
  | Some v => mret v
  | None => raise (KeyError k)
  end.

(** [m[k]] on a map that is only read by key, raising [KeyError]. *)
Definition lookup_item {V} (m : gmap string V) (k : string) : M V :=
  match m !! k with
  | Some v => mret v
  | None => raise (KeyError k)
  end.

(** [t[i]] on a triple, raising [IndexError]. *)
Definition index3 {A} (t : A * A * A) (i : nat) : M A :=
  let '(a, b, c) := t in
  match i with
  | 0%nat => mret a
  | 1%nat => mret b
  | 2%nat => mret c
  | _ => raise IndexError
  end.

(** [a / b] on Python floats, raising [ZeroDivisionError].  (A divisor that
    is a [numpy.float64], as the volumes read from loaded meshes are, makes
    the division return inf or nan instead of raising; such values are not
    rationals and lie outside this development.  The divisor of line 59 is
    the Python float [0.0] when the directory is empty.) *)
Definition divide (site : div_site) (a b : Q) : M Q :=
  if Qeq_bool b 0 then raise (ZeroDivisionError site) else mret (a / b)%Q.

(** ** The script *)

Section Script.

(** [float(s)] of the Python runtime ([None]: the string is not a number)
    and [trimesh.load] on the files of the mesh directory ([None]: the file
    cannot be loaded as a mesh). *)
Variable py_float : string → option Q.
Variable trimesh_load : string → option Trimesh.t.

Definition float (s : string) : M Q :=
  match py_float s with
  | Some x => mret x
  | None => raise ValueError
  end.

(** Line 28. *)
Definition forearm_mass_redistribute_percentage : Q := 1 # 2.

Definition output_file : string := "shadow_hand_inertial_out.sdf".

Definition is_repeated (link_name : string) : bool :=
  PyStr.contains "finger" link_name || PyStr.contains "knuckle" link_name.

Definition is_forearm (link_name : string) : bool :=
  PyStr.contains "forearm" link_name.

(** Lines 18-25: the target mass, from [sys.argv]. *)
Definition read_total_mass (argv : list string) : M Q :=
  total_mass ←
    match argv with
    | _ :: arg :: _ =>
        x ← float arg;
        if Qlt_le_dec 0 x then float arg
        else print MsgUsageError;; raise (SystemExit 1)
    | _ => mret (42 # 10)
    end;
  print (MsgEstimating total_mass);;
  mret total_mass.

(** Lines 31-43: list the mesh directory, sort the names and load every
    file under the name of its link. *)
Definition load_meshes (listing : option (list string))
    : M (Dict.t Trimesh.t) :=
  emit Listdir;;
  visual_mesh_basenames ←
    match listing with
    | Some l => mret l
    | None => raise OSError
    end;
  let visual_mesh_basenames := PyStr.sort visual_mesh_basenames in
  for_each visual_mesh_basenames
    (λ mesh_basename meshes,
       let link_name := PyStr.splitext_root mesh_basename in
       emit (Load mesh_basename);;
       mesh ←
         match trimesh_load mesh_basename with
         | Some m => mret m
         | None => raise (LoadError mesh_basename)
         end;
       mret (Dict.set link_name mesh meshes))
    Dict.empty.

(** Lines 46-56: the total volume and the volume of the forearm.
    [forearm_volume] is [None] while the variable is unbound. *)
Definition sum_volumes (meshes : Dict.t Trimesh.t) : M (Q * option Q) :=
  for_each (Dict.keys meshes)
    (λ link_name '(total_volume, forearm_volume),
       mesh ← getitem meshes link_name;
       print (MsgVolume link_name (Trimesh.volume mesh));;
       total_volume ←
         (if is_repeated link_name
          then let total_volume := (total_volume + 4 * Trimesh.volume mesh)%Q in
               print (MsgNote link_name);; mret total_volume
          else mret (total_volume + Trimesh.volume mesh)%Q);
       let forearm_volume :=
         if is_forearm link_name then Some (Trimesh.volume mesh)
         else forearm_volume in
       mret (total_volume, forearm_volume))
    (0%Q, None).

(** Lines 72-75: the density assigned to a link. *)
Definition assigned_density (fraction average_density other_links_proportion : Q)
    (link_name : string) : M Q :=
  if is_forearm link_name
  then mret ((1 - fraction) * average_density)%Q
  else q ← divide RedistributionFactor fraction other_links_proportion;
       mret (average_density + ((q - fraction) * average_density))%Q.

Definition estimates : Type :=
  Dict.t Trimesh.t * gmap string Q * gmap string Trimesh.mat3
  * gmap string Trimesh.vec3.

(** Lines 67-78: assign the densities and read the inertial properties.
    Setting [mesh.density] changes the mesh object held by [meshes]. *)
Definition estimate_links (fraction average_density other_links_proportion : Q)
    (meshes0 : Dict.t Trimesh.t) : M estimates :=
  for_each (Dict.keys meshes0)
    (λ link_name '(meshes, mass, inertia, centre_of_mass),
       mesh ← getitem meshes link_name;
       d ← assigned_density fraction average_density other_links_proportion
             link_name;
       let mesh := Trimesh.set_density d mesh in
       let meshes := Dict.set link_name mesh meshes in
       mret (meshes,
             <[link_name := Trimesh.mass mesh]> mass,
             <[link_name := Trimesh.moment_inertia mesh]> inertia,
             <[link_name := Trimesh.center_mass mesh]> centre_of_mass))
    (meshes0, ∅, ∅, ∅).

(** Lines 85-91: the total mass recomputed from the link masses. *)
Definition recompute_total_mass (meshes : Dict.t Trimesh.t)
    (mass : gmap string Q) : M Q :=
  total_mass ←
    for_each (Dict.keys meshes)
      (λ link_name total_mass,
         if is_repeated link_name
         then m ← lookup_item mass link_name; mret (total_mass + 4 * m)%Q
         else m ← lookup_item mass link_name; mret (total_mass + m)%Q)
      0%Q;
  print (MsgTotalMass total_mass);;
  mret total_mass.

(** [inertia[link_name][i][j]] *)
Definition tensor_entry (inertia : gmap string Trimesh.mat3)
    (link_name : string) (i j : nat) : M Q :=
  t ← lookup_item inertia link_name;
  row ← index3 t i;
  index3 row j.

(** [centre_of_mass[link_name][i]] *)
Definition vector_entry (centre_of_mass : gmap string Trimesh.vec3)
    (link_name : string) (i : nat) : M Q :=
  v ← lookup_item centre_of_mass link_name;
  index3 v i.

(** Lines 95-106: the entry of one link. *)
Definition make_link (mass : gmap string Q)
    (inertia : gmap string Trimesh.mat3)
    (centre_of_mass : gmap string Trimesh.vec3)
    (link_name : string) : M Sdf.Link :=
  let link := Sdf.create_link in
  m ← lookup_item mass link_name;
  let link := Sdf.set_mass m link in
  x ← tensor_entry inertia link_name 0 0;
  let link := Sdf.set_inertia (Sdf.set_ixx x) link in
  x ← tensor_entry inertia link_name 1 1;
  let link := Sdf.set_inertia (Sdf.set_iyy x) link in
  x ← tensor_entry inertia link_name 2 2;
  let link := Sdf.set_inertia (Sdf.set_izz x) link in
  x ← tensor_entry inertia link_name 0 1;
  let link := Sdf.set_inertia (Sdf.set_ixy x) link in
  x ← tensor_entry inertia link_name 0 2;
  let link := Sdf.set_inertia (Sdf.set_ixz x) link in
  x ← tensor_entry inertia link_name 1 2;
  let link := Sdf.set_inertia (Sdf.set_iyz x) link in
  c0 ← vector_entry centre_of_mass link_name 0;
  c1 ← vector_entry centre_of_mass link_name 1;
  c2 ← vector_entry centre_of_mass link_name 2;
  mret (Sdf.set_pose [c0; c1; c2; 0; 0; 0]%Q link).

(** Lines 94-107: one entry per link, added to the model [sdf.models[0]]. *)
Definition add_links (meshes : Dict.t Trimesh.t) (mass : gmap string Q)
    (inertia : gmap string Trimesh.mat3)
    (centre_of_mass : gmap string Trimesh.vec3) (sdf : Sdf.SDF) : M Sdf.SDF :=
  for_each (Dict.keys meshes)
    (λ link_name sdf,
       link ← make_link mass inertia centre_of_mass link_name;
       mret {| Sdf.models :=
                 alter (Sdf.add_link link_name link) 0%nat (Sdf.models sdf) |})
    sdf.

(** Lines 58-112, for a redistribution fraction [fraction]: the densities,
    the inertial properties and the document.  The export of line 111 is
    one event: a write that fails half-way is not modelled. *)
Definition redistribute (fraction total_mass : Q) (meshes : Dict.t Trimesh.t)
    (total_volume : Q) (forearm_volume : option Q) : M unit :=
  average_density ← divide AverageDensity total_mass total_volume;
  print (MsgAverageDensity average_density);;
  forearm_volume ←
    match forearm_volume with
    | Some v => mret v
    | None => raise (UnboundLocalError "forearm_volume")
    end;
  forearm_volume_proportion ←
    divide ForearmProportion forearm_volume total_volume;
  let other_links_proportion := (1 - forearm_volume_proportion)%Q in
  '(meshes, mass, inertia, centre_of_mass) ←
    estimate_links fraction average_density other_links_proportion meshes;
  let sdf := Sdf.add_model "shadow_hand" Sdf.new in
  _ ← match Sdf.models sdf !! 0%nat with
      | Some model => mret model
      | None => raise IndexError
      end;
  _ ← recompute_total_mass meshes mass;
  sdf ← add_links meshes mass inertia centre_of_mass sdf;
  emit (ExportXml output_file sdf);;
  print (MsgWritten output_file).

(** Lines 45-112. *)
Definition estimate (fraction total_mass : Q) (meshes : Dict.t Trimesh.t)
    : M unit :=
  '(total_volume, forearm_volume) ← sum_volumes meshes;
  redistribute fraction total_mass meshes total_volume forearm_volume.

Definition main (argv : list string) (listing : option (list string))
    : M unit :=
  total_mass ← read_total_mass argv;
  meshes ← load_meshes listing;
  estimate forearm_mass_redistribute_percentage total_mass meshes.

End Script.

(** ** Observations on runs and the quantities the properties speak of *)

(** The files written during a run. *)
Fixpoint exports (tr : list event) : list (string * Sdf.SDF) :=
  match tr with
  | [] => []
  | ExportXml file doc :: tr' => (file, doc) :: exports tr'
  | _ :: tr' => exports tr'
  end.

(** A computation that writes no file. *)
Definition quiet {A} (m : M A) : Prop := exports m.1 = [].

(** A run that writes the output file once, as its last step before
    returning, or fails without writing anything. *)
Definition all_or_nothing {A} (P : Sdf.SDF → Prop) (m : M A) : Prop :=
  match m with
  | (tr, inl _) => exports tr = []
  | (tr, inr _) => ∃ doc, exports tr = [(output_file, doc)] ∧ P doc
  end.

Definition Qsum (l : list Q) : Q := foldr Qplus 0%Q l.

(** The volumes of the links that are (or are not) repeated. *)
Definition volumes_where (repeated : bool) (meshes : Dict.t Trimesh.t)
    : list Q :=
  (λ e, Trimesh.volume e.2) <$> filter (λ e, is_repeated e.1 = repeated) meshes.

(** The sum of the volumes, those of the repeated links counted four
    times. *)
Definition weighted_total_volume (meshes : Dict.t Trimesh.t) : Q :=
  (Qsum (volumes_where false meshes) + 4 * Qsum (volumes_where true meshes))%Q.

(** The share of a link in the volume and mass bookkeeping. *)
Definition weighted_volume (link_name : string) (mesh : Trimesh.t) : Q :=
  if is_repeated link_name then (4 * Trimesh.volume mesh)%Q
  else Trimesh.volume mesh.

(** The links whose name matches the forearm, in iteration order. *)
Definition forearm_links (meshes : Dict.t Trimesh.t) : Dict.t Trimesh.t :=
  filter (λ e, is_forearm e.1 = true) meshes.

(** The matching link whose name is last in lexicographic order. *)
Definition lexicographically_last (d : Dict.t Trimesh.t)
    : option (string * Trimesh.t) :=
  foldl (λ best e,
           match best with
           | Some b => if String.leb b.1 e.1 then Some e else Some b
           | None => Some e
           end) None d.

(** The forearm-named file that is last in the sorted directory listing. *)
Definition last_forearm_file (listing : list string) : option string :=
  last (filter (λ b, is_forearm (PyStr.splitext_root b) = true)
          (PyStr.sort listing)).

(** The entry of a link, read off a mesh whose density has been set. *)
Definition link_entry (mesh : Trimesh.t) : Sdf.Link :=
  let '((a00, a01, a02), (a10, a11, a12), (a20, a21, a22)) :=
    Trimesh.moment_inertia mesh in
  let '(c0, c1, c2) := Trimesh.center_mass mesh in
  {| Sdf.mass := Trimesh.mass mesh;
     Sdf.inertia := Sdf.MkInertia a00 a11 a22 a01 a02 a12;
     Sdf.pose := [c0; c1; c2; 0; 0; 0]%Q |}.

(** The document with one model that holds one entry per mesh. *)
Definition document_of (meshes : Dict.t Trimesh.t) : Sdf.SDF :=
  {| Sdf.models :=
       [ {| Sdf.model_name := "shadow_hand";
            Sdf.links := (λ e, (e.1, link_entry e.2)) <$> meshes |} ] |}.

(** One round of the loop of lines 47-56 on the two accumulators. *)
Definition volume_step (acc : Q * option Q) (e : string * Trimesh.t)
    : Q * option Q :=
  ((acc.1 + weighted_volume e.1 e.2)%Q,
   if is_forearm e.1 then Some (Trimesh.volume e.2) else acc.2).

Definition volume_totals (meshes : Dict.t Trimesh.t) : Q * option Q :=
  foldl volume_step (0%Q, None) meshes.

(** The density of lines 72-75 when the division is defined. *)
Definition density_for (fraction average_density other_links_proportion : Q)
    (link_name : string) : Q :=
  if is_forearm link_name
  then ((1 - fraction) * average_density)%Q
  else (average_density
        + ((fraction / other_links_proportion - fraction) * average_density))%Q.

(** The meshes after the loop of lines 70-78 has set every density. *)
Definition with_densities (fraction average_density other_links_proportion : Q)
    (meshes : Dict.t Trimesh.t) : Dict.t Trimesh.t :=
  (λ e, (e.1,
         Trimesh.set_density
           (density_for fraction average_density other_links_proportion e.1)
           e.2)) <$> meshes.

(** The loop of lines 70-78 on the meshes alone: it stops at the first
    link whose density cannot be computed. *)
Fixpoint assign_all (fraction average_density other_links_proportion : Q)
    (todo : Dict.t Trimesh.t) : exn + Dict.t Trimesh.t :=
  match todo with
  | [] => inr []
  | (k, m) :: todo' =>
      match (assigned_density fraction average_density
               other_links_proportion k).2 with
      | inl e => inl e
      | inr d =>
          match assign_all fraction average_density other_links_proportion
                  todo' with
          | inl e => inl e
          | inr rest => inr ((k, Trimesh.set_density d m) :: rest)
          end
      end
  end.

(** One round of the loop of lines 70-78 on the three result maps. *)
Definition record_step
    (acc : gmap string Q * gmap string Trimesh.mat3 * gmap string Trimesh.vec3)
    (e : string * Trimesh.t)
    : gmap string Q * gmap string Trimesh.mat3 * gmap string Trimesh.vec3 :=
  (<[e.1 := Trimesh.mass e.2]> acc.1.1,
   <[e.1 := Trimesh.moment_inertia e.2]> acc.1.2,
   <[e.1 := Trimesh.center_mass e.2]> acc.2).

Definition records (meshes : Dict.t Trimesh.t)
    : gmap string Q * gmap string Trimesh.mat3 * gmap string Trimesh.vec3 :=
  foldl record_step (∅, ∅, ∅) meshes.

(** One round of the loop of lines 86-90. *)
Definition mass_step (total_mass : Q) (e : string * Trimesh.t) : Q :=
  if is_repeated e.1 then (total_mass + 4 * Trimesh.mass e.2)%Q
  else (total_mass + Trimesh.mass e.2)%Q.

(** The sum over the links of [c link_name] times the share of the link. *)
Definition weighted_sum (c : string → Q) (meshes : Dict.t Trimesh.t) : Q :=
  foldr (λ e acc, c e.1 * weighted_volume e.1 e.2 + acc)%Q 0%Q meshes.

Definition forearm_indicator (link_name : string) : Q :=
  if is_forearm link_name then 1%Q else 0%Q.

(** [t[i]] and [tensor[i][j]] as values: [None] when out of range. *)
Definition nth3 {A} (t : A * A * A) (i : nat) : option A :=
  match i with
  | 0%nat => Some t.1.1
  | 1%nat => Some t.1.2
  | 2%nat => Some t.2
  | _ => None
  end.

Definition tensor_at (tensor : Trimesh.mat3) (i j : nat) : option Q :=
  row ← nth3 tensor i; nth3 row j.

(** An error that the script reports itself, as lines 22-24 do for the
    target mass: a message, then the exit.  Every other exception of a run
    is raised by the interpreter or by a library. *)
Definition explicit_error (e : exn) : Prop := ∃ status, e = SystemExit status.

(** ** Example inputs *)

(** A mesh of the given volume, as loaded (density 1). *)
Definition example_mesh (v : Q) : Trimesh.t :=
  {| Trimesh.volume := v; Trimesh.density := 1;
     Trimesh.center_mass := (1 # 10, 2 # 10, 3 # 10)%Q;
     Trimesh.unit_inertia :=
       ((2, 0, 1), (0, 3, 0), (1, 0, 4))%Q |}.

(** The three links of the end-to-end scenario. *)
Definition scenario_meshes : Dict.t Trimesh.t :=
  [("fingerfoo", example_mesh (1 # 10));
   ("forearm", example_mesh 1);
   ("palm", example_mesh (1 # 2))].

(** A hand whose only forearm-named link is also knuckle-named. *)
Definition repeated_forearm_meshes : Dict.t Trimesh.t :=
  [("forearm_knuckle", example_mesh 1); ("palm", example_mesh 1)].

(** A mesh directory. *)
Definition example_load (basename : string) : option Trimesh.t :=
  if String.eqb basename "forearm.dae" then Some (example_mesh 1)
  else if String.eqb basename "forearm-x.dae" then Some (example_mesh 2)
  else if String.eqb basename "forearm.dae.stl" then Some (example_mesh 3)
  else if String.eqb basename "forearm.stl" then Some (example_mesh 5)
  else if String.eqb basename "palm.dae" then Some (example_mesh (1 # 2))
  else if String.eqb basename "fingerfoo.dae" then Some (example_mesh (1 # 10))
  else None.

(** [float] on the arguments used in the examples. *)
Definition example_float (s : string) : option Q :=
  if String.eqb s "4.2" then Some (42 # 10)%Q
  else if String.eqb s "0" then Some 0%Q
  else if String.eqb s "-1" then Some (-1)%Q
  else None.

(** ** Further quantities: the loaded dictionary and the console lines *)

(** One round of the loop of lines 38-43 on the dictionary, for a file that
    loads (a file that does not load ends the run instead). *)
Definition insert_file (trimesh_load : string → option Trimesh.t)
    (meshes : Dict.t Trimesh.t) (mesh_basename : string) : Dict.t Trimesh.t :=
  match trimesh_load mesh_basename with
  | Some mesh => Dict.set (PyStr.splitext_root mesh_basename) mesh meshes
  | None => meshes
  end.

(** The lines printed by the loop of lines 47-56: the raw volume of every
    link, followed by a note when the link is repeated. *)
Definition volume_lines (meshes : Dict.t Trimesh.t) : list event :=
  concat
    ((λ e, Print (MsgVolume e.1 (Trimesh.volume e.2))
           :: (if is_repeated e.1 then [Print (MsgNote e.1)] else []))
       <$> meshes).

(** A hand made of forearm-named links only, and a hand with two
    forearm-named links among others. *)
Definition forearm_only_meshes : Dict.t Trimesh.t :=
  [("forearm", example_mesh 1); ("forearm_cover", example_mesh (1 # 4))].

Definition two_forearm_meshes : Dict.t Trimesh.t :=
  [("forearm", example_mesh 1);
   ("forearm_cover", example_mesh (1 # 4));
   ("palm", example_mesh (1 # 2))].

(** ** The monad of runs *)

Lemma bind_unfold {A B} (m : M A) (k : A → M B) :
  m ≫= k =
  match m with
  | (t, inl e) => (t, inl e)
  | (t, inr a) => (t ++ (k a).1, (k a).2)
  end.
Proof.
  unfold mbind, M_mbind, M_bind. destruct m as [t [e|a]]; [done|].
  by destruct (k a).
Qed.

Lemma bind_pure {A B} (a : A) (k : A → M B) : mret a ≫= k = k a.
Proof. rewrite bind_unfold. simpl. by destruct (k a). Qed.

Lemma bind_result {A B} (m : M A) (k : A → M B) :
  (m ≫= k).2 = match m.2 with inl e => inl e | inr a => (k a).2 end.
Proof. rewrite bind_unfold. by destruct m as [t [e|a]]. Qed.

Lemma bind_inr_inv {A B} (m : M A) (k : A → M B) t b :
  m ≫= k = (t, inr b) →
  ∃ t1 a t2, m = (t1, inr a) ∧ k a = (t2, inr b) ∧ t = t1 ++ t2.
Proof.
  rewrite bind_unfold. destruct m as [t1 [e|a]]; [done|].
  destruct (k a) as [t2 r] eqn:E. simpl. intros [= <- ->]. eauto 6.
Qed.

Lemma exports_app t1 t2 : exports (t1 ++ t2) = exports t1 ++ exports t2.
Proof.
  induction t1 as [|ev t1 IH]; [done|].
  destruct ev; simpl; by rewrite ?IH.
Qed.

Lemma quiet_bind {A B} (m : M A) (k : A → M B) :
  quiet m → (∀ a, quiet (k a)) → quiet (m ≫= k).
Proof.
  unfold quiet. rewrite bind_unfold. destruct m as [t [e|a]]; simpl; [done|].
  intros Hm Hk. by rewrite exports_app, Hm, Hk.
Qed.

Lemma quiet_for_each {A S} (l : list A) (body : A → S → M S) s :
  (∀ x s', quiet (body x s')) → quiet (for_each l body s).
Proof.
  intros Hb. revert s. induction l as [|x l IH]; intros s; simpl; [done|].
  apply quiet_bind; auto.
Qed.

Lemma all_or_nothing_bind {A B} P (m : M A) (k : A → M B) :
  quiet m →
  (∀ t a, m = (t, inr a) → all_or_nothing P (k a)) →
  all_or_nothing P (m ≫= k).
Proof.
  unfold quiet. rewrite bind_unfold. destruct m as [t [e|a]]; simpl; [done|].
  intros Hm Hk. specialize (Hk t a eq_refl). unfold all_or_nothing in Hk.
  destruct (k a) as [t' [e|b]]; simpl in *; rewrite exports_app, Hm; done.
Qed.

Lemma bind_ext {A B} (m : M A) (k1 k2 : A → M B) :
  (∀ a, k1 a = k2 a) → m ≫= k1 = m ≫= k2.
Proof. intros H. rewrite !bind_unfold. destruct m as [t [e|a]]; by rewrite ?H. Qed.

(** ** Loops over the keys of a dictionary *)

Lemma for_each_keys {V S} (d : Dict.t V) (f : string → S → M S)
    (g : string * V → S → M S) s :
  (∀ k v s', (k, v) ∈ d → f k s' = g (k, v) s') →
  for_each (Dict.keys d) f s = for_each d g s.
Proof.
  revert s. induction d as [|[k v] d IH]; intros s Hfg; simpl; [done|].
  rewrite (Hfg k v) by left. apply bind_ext. intros s'. apply IH.
  intros k' v' s'' Hin. apply Hfg. by right.
Qed.

Lemma get_app_head {V} (k : string) (v : V) (done todo : Dict.t V) :
  k ∉ Dict.keys done → Dict.get k (done ++ (k, v) :: todo) = Some v.
Proof.
  induction done as [|[k' v'] done IH]; simpl; intros Hk.
  - by rewrite String.eqb_refl.
  - apply not_elem_of_cons in Hk as [Hne Hk].
    destruct (String.eqb_spec k k'); [done|]. by apply IH.
Qed.

Lemma set_app_head {V} (k : string) (v v' : V) (done todo : Dict.t V) :
  k ∉ Dict.keys done →
  Dict.set k v' (done ++ (k, v) :: todo) = done ++ (k, v') :: todo.
Proof.
  induction done as [|[k0 v0] done IH]; simpl; intros Hk.
  - by rewrite String.eqb_refl.
  - apply not_elem_of_cons in Hk as [Hne Hk].
    destruct (String.eqb_spec k k0); [done|]. by rewrite IH.
Qed.

Lemma getitem_app_head {V} (k : string) (v : V) (done todo : Dict.t V) :
  k ∉ Dict.keys done → getitem (done ++ (k, v) :: todo) k = mret v.
Proof. intros Hk. unfold getitem. by rewrite get_app_head. Qed.

Lemma keys_cons {V} (k : string) (v : V) (d : Dict.t V) :
  Dict.keys ((k, v) :: d) = k :: Dict.keys d.
Proof. done. Qed.

Lemma for_each_cons {A S} (x : A) (l : list A) (body : A → S → M S) s :
  for_each (x :: l) body s = body x s ≫= for_each l body.
Proof. done. Qed.

Lemma get_elem_of {V} (k : string) (v : V) (d : Dict.t V) :
  NoDup (Dict.keys d) → (k, v) ∈ d → Dict.get k d = Some v.
Proof.
  intros Hnd Hin. apply list_elem_of_split in Hin as (done & todo & ->).
  apply get_app_head. unfold Dict.keys in *.
  rewrite fmap_app, fmap_cons in Hnd. apply NoDup_app in Hnd as (_ & Hd & _).
  intros Hk. apply (Hd k Hk). by left.
Qed.

Lemma keys_set {V} (k : string) (v : V) (d : Dict.t V) :
  Dict.keys (Dict.set k v d) =
  if decide (k ∈ Dict.keys d) then Dict.keys d else Dict.keys d ++ [k].
Proof.
  induction d as [|[k' v'] d IH]; simpl; [done|].
  destruct (String.eqb_spec k k') as [->|Hne]; simpl.
  - rewrite decide_True by left. done.
  - unfold Dict.keys in *. rewrite IH.
    destruct (decide (k ∈ d.*1)) as [Hin|Hin].
    + rewrite decide_True by (by right). done.
    + rewrite decide_False; [done|]. by intros [?|?]%elem_of_cons.
Qed.

Lemma NoDup_keys_set {V} (k : string) (v : V) (d : Dict.t V) :
  NoDup (Dict.keys d) → NoDup (Dict.keys (Dict.set k v d)).
Proof.
  intros Hnd. rewrite keys_set. case_decide; [done|].
  apply NoDup_app. split_and!; [done| |apply NoDup_singleton].
  intros x Hx ->%list_elem_of_singleton. done.
Qed.

(** ** The volume aggregator (lines 46-56) *)

Lemma for_each_volume_step (d : Dict.t Trimesh.t) (acc : Q * option Q) :
  (for_each d
     (λ e '(total_volume, forearm_volume),
        print (MsgVolume e.1 (Trimesh.volume e.2));;
        total_volume ←
          (if is_repeated e.1
           then print (MsgNote e.1);;
                mret (total_volume + 4 * Trimesh.volume e.2)%Q
           else mret (total_volume + Trimesh.volume e.2)%Q);
        mret (total_volume,
              if is_forearm e.1 then Some (Trimesh.volume e.2)
              else forearm_volume))
     acc).2 = inr (foldl volume_step acc d).
Proof.
  revert acc. induction d as [|[k m] d IH]; intros [tv fv]; simpl; [done|].
  rewrite bind_result. unfold volume_step at 2, weighted_volume. simpl.
  destruct (is_repeated k); simpl; apply IH.
Qed.

Lemma sum_volumes_result (meshes : Dict.t Trimesh.t) :
  NoDup (Dict.keys meshes) →
  (sum_volumes meshes).2 = inr (volume_totals meshes).
Proof.
  intros Hnd. unfold sum_volumes, volume_totals.
  rewrite <- for_each_volume_step. f_equal.
  apply for_each_keys. intros k v [tv fv] Hin.
  unfold getitem. rewrite (get_elem_of k v) by done.
  rewrite bind_pure. done.
Qed.

Lemma sum_volumes_quiet (meshes : Dict.t Trimesh.t) : quiet (sum_volumes meshes).
Proof.
  apply quiet_for_each. intros k [tv fv]. unfold getitem.
  destruct (Dict.get k meshes); [|done].
  rewrite bind_pure. destruct (is_repeated k); done.
Qed.

Lemma Qsum_cons x l : Qsum (x :: l) = (x + Qsum l)%Q.
Proof. done. Qed.

Lemma weighted_total_volume_cons k m (d : Dict.t Trimesh.t) :
  (weighted_total_volume ((k, m) :: d)
   == weighted_volume k m + weighted_total_volume d)%Q.
Proof.
  unfold weighted_total_volume, volumes_where, weighted_volume.
  rewrite !filter_cons. cbn [fst snd].
  destruct (is_repeated k);
    repeat case_decide; try done; rewrite fmap_cons, Qsum_cons; cbn [snd]; ring.
Qed.

Lemma volume_totals_from acc (d : Dict.t Trimesh.t) :
  ((foldl volume_step acc d).1 == acc.1 + weighted_total_volume d)%Q.
Proof.
  revert acc. induction d as [|[k m] d IH]; intros acc; simpl.
  - unfold weighted_total_volume. simpl. ring.
  - rewrite IH, weighted_total_volume_cons. simpl. ring.
Qed.

(** C2. For every dictionary of meshes (a dictionary has distinct keys), the
    total volume accumulated by the loop of lines 46-56 is the sum of the
    volumes of the links that are not repeated plus four times the sum of
    the volumes of the repeated (finger- or knuckle-named) links. *)
Theorem total_volume_counts_repeated_four_times (meshes : Dict.t Trimesh.t) :
  NoDup (Dict.keys meshes) →
  ∃ total_volume forearm_volume,
    (sum_volumes meshes).2 = inr (total_volume, forearm_volume) ∧
    (total_volume ==
       Qsum (volumes_where false meshes)
       + 4 * Qsum (volumes_where true meshes))%Q.
Proof.
  intros Hnd. exists (volume_totals meshes).1, (volume_totals meshes).2.
  split.
  - rewrite sum_volumes_result by done. by destruct (volume_totals meshes).
  - unfold volume_totals. rewrite volume_totals_from. simpl.
    unfold weighted_total_volume. ring.
Qed.

(** ** The per-link estimator (lines 67-78) *)

Lemma assigned_density_trace f rho p k : (assigned_density f rho p k).1 = [].
Proof.
  unfold assigned_density, divide.
  destruct (is_forearm k); [done|]. by destruct (Qeq_bool p 0).
Qed.

Lemma assigned_density_defined f rho p k :
  Qeq_bool p 0 = false →
  assigned_density f rho p k = mret (density_for f rho p k).
Proof.
  intros Hp. unfold assigned_density, density_for, divide.
  destruct (is_forearm k); [done|]. by rewrite Hp.
Qed.

Lemma assigned_density_result f rho p k d :
  (assigned_density f rho p k).2 = inr d → d = density_for f rho p k.
Proof.
  unfold assigned_density, density_for, divide.
  destruct (is_forearm k); [by intros [=]|].
  destruct (Qeq_bool p 0); [done|]. by intros [=].
Qed.

Lemma assign_all_defined f rho p (d : Dict.t Trimesh.t) :
  Qeq_bool p 0 = false → assign_all f rho p d = inr (with_densities f rho p d).
Proof.
  intros Hp. induction d as [|[k m] d IH]; simpl; [done|].
  rewrite assigned_density_defined, IH by done. done.
Qed.

Lemma assign_all_result f rho p (d d' : Dict.t Trimesh.t) :
  assign_all f rho p d = inr d' → d' = with_densities f rho p d.
Proof.
  revert d'. induction d as [|[k m] d IH]; simpl; intros d'; [by intros [=]|].
  destruct (assigned_density f rho p k).2 as [e|x] eqn:E; [done|].
  destruct (assign_all f rho p d) as [e|rest]; [done|].
  intros [= <-]. rewrite (IH rest eq_refl).
  by rewrite (assigned_density_result _ _ _ _ _ E).
Qed.

Lemma estimate_links_from f rho p (done todo : Dict.t Trimesh.t) acc :
  NoDup (Dict.keys (done ++ todo)) →
  for_each (Dict.keys todo)
    (λ link_name '(meshes, mass, inertia, centre_of_mass),
       mesh ← getitem meshes link_name;
       d ← assigned_density f rho p link_name;
       let mesh := Trimesh.set_density d mesh in
       let meshes := Dict.set link_name mesh meshes in
       mret (meshes,
             <[link_name := Trimesh.mass mesh]> mass,
             <[link_name := Trimesh.moment_inertia mesh]> inertia,
             <[link_name := Trimesh.center_mass mesh]> centre_of_mass))
    (done ++ todo, acc.1.1, acc.1.2, acc.2)
  = ([], match assign_all f rho p todo with
         | inl e => inl e
         | inr todo' =>
             let acc' := foldl record_step acc todo' in
             inr (done ++ todo', acc'.1.1, acc'.1.2, acc'.2)
         end).
Proof.
  revert done acc.
  induction todo as [|[k m] todo IH]; intros done [[ma ia] ca] Hnd.
  { simpl. by rewrite app_nil_r. }
  assert (k ∉ Dict.keys done) as Hk.
  { unfold Dict.keys in *. rewrite fmap_app, fmap_cons in Hnd.
    apply NoDup_app in Hnd as (_ & Hd & _).
    intros Hin. apply (Hd k Hin). by left. }
  rewrite keys_cons, for_each_cons. cbn [assign_all fst snd].
  rewrite getitem_app_head by done. rewrite bind_pure.
  pose proof (assigned_density_trace f rho p k) as Ht.
  destruct (assigned_density f rho p k) as [t [e|d]] eqn:E;
    simpl in Ht; subst t; cbn [snd].
  { by rewrite !bind_unfold. }
  change ([], inr d) with (mret (M := M) d).
  rewrite bind_pure. cbv zeta. rewrite bind_pure, set_app_head by done.
  specialize (IH (done ++ [(k, Trimesh.set_density d m)])
                (<[k:=Trimesh.mass (Trimesh.set_density d m)]> ma,
                 <[k:=Trimesh.moment_inertia (Trimesh.set_density d m)]> ia,
                 <[k:=Trimesh.center_mass (Trimesh.set_density d m)]> ca)).
  rewrite <- !app_assoc in IH. cbn [app fst snd] in IH. rewrite IH.
  - destruct (assign_all f rho p todo); [done|].
    by rewrite <- app_assoc.
  - unfold Dict.keys in *. by rewrite !fmap_app, !fmap_cons in *.
Qed.

Lemma estimate_links_eq f rho p (meshes : Dict.t Trimesh.t) :
  NoDup (Dict.keys meshes) →
  estimate_links f rho p meshes
  = ([], match assign_all f rho p meshes with
         | inl e => inl e
         | inr meshes' =>
             inr (meshes', (records meshes').1.1, (records meshes').1.2,
                  (records meshes').2)
         end).
Proof.
  intros Hnd. unfold estimate_links.
  exact (estimate_links_from f rho p [] meshes (∅, ∅, ∅) Hnd).
Qed.

Lemma keys_with_densities f rho p (d : Dict.t Trimesh.t) :
  Dict.keys (with_densities f rho p d) = Dict.keys d.
Proof.
  unfold Dict.keys, with_densities. rewrite <- list_fmap_compose.
  by apply list_fmap_ext.
Qed.

Lemma record_step_absent k acc (d : Dict.t Trimesh.t) :
  k ∉ Dict.keys d →
  (foldl record_step acc d).1.1 !! k = acc.1.1 !! k ∧
  (foldl record_step acc d).1.2 !! k = acc.1.2 !! k ∧
  (foldl record_step acc d).2 !! k = acc.2 !! k.
Proof.
  revert acc. induction d as [|[k' m'] d IH]; intros acc Hk; simpl; [done|].
  apply not_elem_of_cons in Hk as [Hne Hk].
  destruct (IH (record_step acc (k', m')) Hk) as (-> & -> & ->).
  simpl. by rewrite !lookup_insert_ne.
Qed.

Lemma record_step_present k m acc (d : Dict.t Trimesh.t) :
  NoDup (Dict.keys d) → (k, m) ∈ d →
  (foldl record_step acc d).1.1 !! k = Some (Trimesh.mass m) ∧
  (foldl record_step acc d).1.2 !! k = Some (Trimesh.moment_inertia m) ∧
  (foldl record_step acc d).2 !! k = Some (Trimesh.center_mass m).
Proof.
  revert acc. induction d as [|[k' m'] d IH]; intros acc Hnd Hin; simpl.
  { by apply elem_of_nil in Hin. }
  apply NoDup_cons in Hnd as [Hk' Hnd].
  apply elem_of_cons in Hin as [[= -> ->]|Hin].
  - destruct (record_step_absent k' (record_step acc (k', m')) d Hk')
      as (-> & -> & ->).
    simpl. by rewrite !lookup_insert_eq.
  - by apply IH.
Qed.

(** ** The recomputed total mass (lines 85-91) and the link entries
       (lines 94-107) *)

Lemma for_each_pure {A S} (l : list A) (h : S → A → S) (s : S) :
  for_each l (λ x s', mret (h s' x)) s = mret (foldl h s l).
Proof.
  revert s. induction l as [|x l IH]; intros s; [done|].
  rewrite for_each_cons, bind_pure. apply IH.
Qed.

Lemma recompute_total_mass_eq (d : Dict.t Trimesh.t) (mass : gmap string Q) :
  (∀ k m, (k, m) ∈ d → mass !! k = Some (Trimesh.mass m)) →
  recompute_total_mass d mass
  = ([Print (MsgTotalMass (foldl mass_step 0%Q d))],
     inr (foldl mass_step 0%Q d)).
Proof.
  intros Hmass. unfold recompute_total_mass.
  rewrite (for_each_keys d _ (λ e total_mass, mret (mass_step total_mass e))).
  - rewrite for_each_pure, bind_pure. done.
  - intros k m tm Hin. unfold lookup_item, mass_step.
    rewrite (Hmass k m Hin). cbn [fst snd].
    destruct (is_repeated k); by rewrite bind_pure.
Qed.

Lemma make_link_eq (mass : gmap string Q) (inertia : gmap string Trimesh.mat3)
    (centre_of_mass : gmap string Trimesh.vec3) k m :
  mass !! k = Some (Trimesh.mass m) →
  inertia !! k = Some (Trimesh.moment_inertia m) →
  centre_of_mass !! k = Some (Trimesh.center_mass m) →
  make_link mass inertia centre_of_mass k = mret (link_entry m).
Proof.
  intros Hm Hi Hc.
  unfold make_link, tensor_entry, vector_entry, lookup_item, link_entry.
  rewrite Hm, Hi, Hc.
  destruct (Trimesh.moment_inertia m) 
    as [[[[a00 a01] a02] [[a10 a11] a12]] [[a20 a21] a22]].
  destruct (Trimesh.center_mass m) as [[c0 c1] c2].
  reflexivity.
Qed.

Lemma add_links_from (todo : Dict.t Trimesh.t) (mass : gmap string Q)
    (inertia : gmap string Trimesh.mat3)
    (centre_of_mass : gmap string Trimesh.vec3) name entries :
  (∀ k m, (k, m) ∈ todo →
     make_link mass inertia centre_of_mass k = mret (link_entry m)) →
  add_links todo mass inertia centre_of_mass
    {| Sdf.models := [ {| Sdf.model_name := name; Sdf.links := entries |} ] |}
  = mret {| Sdf.models :=
              [ {| Sdf.model_name := name;
                   Sdf.links :=
                     entries ++ ((λ e, (e.1, link_entry e.2)) <$> todo) |} ] |}.
Proof.
  unfold add_links. revert entries.
  induction todo as [|[k m] todo IH]; intros entries Hlink.
  { simpl. by rewrite app_nil_r. }
  rewrite keys_cons, for_each_cons, (Hlink k m) by left.
  rewrite bind_pure, bind_pure. cbn [Sdf.models alter list_alter].
  unfold Sdf.add_link. cbn [Sdf.model_name Sdf.links].
  rewrite IH.
  - rewrite fmap_cons, <- app_assoc. done.
  - intros k' m' Hin. apply Hlink. by right.
Qed.

(** ** The whole estimation (lines 45-112) *)

Lemma records_lookup (d : Dict.t Trimesh.t) k m :
  NoDup (Dict.keys d) → (k, m) ∈ d →
  (records d).1.1 !! k = Some (Trimesh.mass m) ∧
  (records d).1.2 !! k = Some (Trimesh.moment_inertia m) ∧
  (records d).2 !! k = Some (Trimesh.center_mass m).
Proof. apply record_step_present. Qed.

Lemma divide_zero site a b :
  Qeq_bool b 0 = true → divide site a b = raise (ZeroDivisionError site).
Proof. intros H. unfold divide. by rewrite H. Qed.

Lemma divide_defined site a b :
  Qeq_bool b 0 = false → divide site a b = mret (a / b)%Q.
Proof. intros H. unfold divide. by rewrite H. Qed.

Lemma raise_bind {A B} e (k : A → M B) : raise e ≫= k = raise e.
Proof. done. Qed.

Lemma emit_bind {B} ev (k : unit → M B) :
  emit ev ≫= k = (ev :: (k ()).1, (k ()).2).
Proof. unfold emit. by rewrite bind_unfold. Qed.

Lemma print_bind {B} msg (k : unit → M B) :
  print msg ≫= k = (Print msg :: (k ()).1, (k ()).2).
Proof. apply emit_bind. Qed.

Lemma redistribute_eq f total_mass (meshes : Dict.t Trimesh.t) tv fvo :
  NoDup (Dict.keys meshes) →
  redistribute f total_mass meshes tv fvo =
  if Qeq_bool tv 0
  then raise (ZeroDivisionError AverageDensity)
  else
    match fvo with
    | None =>
        ([Print (MsgAverageDensity (total_mass / tv))],
         inl (UnboundLocalError "forearm_volume"))
    | Some forearm_volume =>
        match assign_all f (total_mass / tv) (1 - forearm_volume / tv)
                meshes with
        | inl e => ([Print (MsgAverageDensity (total_mass / tv))], inl e)
        | inr meshes' =>
            ([Print (MsgAverageDensity (total_mass / tv));
              Print (MsgTotalMass (foldl mass_step 0%Q meshes'));
              ExportXml output_file (document_of meshes');
              Print (MsgWritten output_file)],
             inr ())
        end
    end.
Proof.
  intros Hnd. unfold redistribute.
  destruct (Qeq_bool tv 0) eqn:Etv.
  { by rewrite divide_zero, raise_bind. }
  rewrite divide_defined, bind_pure by done.
  rewrite print_bind.
  destruct fvo as [fv|]; [|by rewrite raise_bind].
  rewrite bind_pure, divide_defined, bind_pure by done. cbv zeta.
  rewrite estimate_links_eq by done.
  destruct (assign_all f (total_mass / tv) (1 - fv / tv) meshes)
    as [e|meshes'] eqn:Ea.
  { by rewrite bind_unfold. }
  assert (NoDup (Dict.keys meshes')) as Hnd'.
  { apply assign_all_result in Ea as ->. by rewrite keys_with_densities. }
  change ([], inr ?x) with (mret (M := M) x). rewrite bind_pure.
  cbn [Sdf.add_model Sdf.new Sdf.models app lookup list_lookup].
  rewrite bind_pure.
  rewrite recompute_total_mass_eq
    by (intros k m Hin; by apply (records_lookup meshes' k m)).
  rewrite bind_unfold.
  rewrite (add_links_from meshes' _ _ _ "shadow_hand" []).
  2: { intros k m Hin.
       destruct (records_lookup meshes' k m Hnd' Hin) as (Hm & Hi & Hc).
       by apply make_link_eq. }
  rewrite bind_pure, emit_bind. unfold document_of. done.
Qed.

Lemma estimate_eq f total_mass (meshes : Dict.t Trimesh.t) :
  NoDup (Dict.keys meshes) →
  estimate f total_mass meshes =
  ((sum_volumes meshes).1 ++
     (redistribute f total_mass meshes (volume_totals meshes).1
        (volume_totals meshes).2).1,
   (redistribute f total_mass meshes (volume_totals meshes).1
      (volume_totals meshes).2).2).
Proof.
  intros Hnd. unfold estimate.
  pose proof (sum_volumes_result meshes Hnd) as Hs.
  destruct (sum_volumes meshes) as [progress r]. cbn [snd] in Hs. subst r.
  rewrite bind_unfold. by destruct (volume_totals meshes).
Qed.

(** ** Mass bookkeeping *)

Lemma mass_sum_from f rho p acc (d : Dict.t Trimesh.t) :
  (foldl mass_step acc (with_densities f rho p d)
   == acc + weighted_sum (density_for f rho p) d)%Q.
Proof.
  revert acc. induction d as [|[k m] d IH]; intros acc.
  - simpl. ring.
  - unfold with_densities in *. rewrite fmap_cons. cbn [foldl].
    rewrite IH. unfold mass_step, weighted_sum, weighted_volume, Trimesh.mass.
    cbn [foldr fst snd Trimesh.set_density Trimesh.density Trimesh.volume].
    destruct (is_repeated k); ring.
Qed.

Lemma weighted_sum_density f rho p (d : Dict.t Trimesh.t) :
  (weighted_sum (density_for f rho p) d
   == (1 - f) * rho * weighted_sum forearm_indicator d
      + (rho + (f / p - f) * rho)
        * (weighted_sum (λ _, 1) d - weighted_sum forearm_indicator d))%Q.
Proof.
  induction d as [|[k m] d IH]; unfold weighted_sum in *; cbn [foldr fst snd].
  - ring.
  - rewrite IH. unfold density_for, forearm_indicator.
    destruct (is_forearm k); ring.
Qed.

Lemma total_volume_from acc (d : Dict.t Trimesh.t) :
  ((foldl volume_step acc d).1 == acc.1 + weighted_sum (λ _, 1) d)%Q.
Proof.
  revert acc. induction d as [|[k m] d IH]; intros acc; cbn [foldl].
  - unfold weighted_sum. simpl. ring.
  - rewrite IH. unfold weighted_sum. cbn [foldr fst snd volume_step]. ring.
Qed.

Lemma forearm_weight_none (d : Dict.t Trimesh.t) :
  forearm_links d = [] → (weighted_sum forearm_indicator d == 0)%Q.
Proof.
  unfold forearm_links.
  induction d as [|[k m] d IH]; intros Hf; unfold weighted_sum in *;
    cbn [foldr fst snd]; [ring|].
  rewrite filter_cons in Hf. cbn [fst] in Hf. unfold forearm_indicator at 1.
  destruct (is_forearm k).
  - by rewrite decide_True in Hf.
  - rewrite decide_False in Hf by done. rewrite (IH Hf). ring.
Qed.

Lemma forearm_weight_one (d : Dict.t Trimesh.t) k0 m0 :
  forearm_links d = [(k0, m0)] → is_repeated k0 = false →
  (weighted_sum forearm_indicator d == Trimesh.volume m0)%Q.
Proof.
  unfold forearm_links. intros Hf Hrep.
  induction d as [|[k m] d IH]; [done|].
  rewrite filter_cons in Hf. cbn [fst] in Hf.
  unfold weighted_sum in *. cbn [foldr fst snd].
  unfold forearm_indicator at 1. destruct (is_forearm k).
  - rewrite decide_True in Hf by done. injection Hf as -> -> Hf.
    pose proof (forearm_weight_none d Hf) as H0.
    unfold weighted_sum in H0. rewrite H0.
    unfold weighted_volume. rewrite Hrep. ring.
  - rewrite decide_False in Hf by done. rewrite (IH Hf). ring.
Qed.

Lemma forearm_volume_from acc (d : Dict.t Trimesh.t) :
  (foldl volume_step acc d).2 =
  match last (forearm_links d) with
  | Some e => Some (Trimesh.volume e.2)
  | None => acc.2
  end.
Proof.
  unfold forearm_links. revert acc.
  induction d as [|[k m] d IH]; intros acc; [done|].
  cbn [foldl]. rewrite IH, filter_cons. cbn [fst snd volume_step].
  destruct (is_forearm k).
  - rewrite decide_True by done. rewrite last_cons.
    by destruct (last (filter _ d)).
  - by rewrite decide_False by done.
Qed.

Lemma Qeq_bool_pos x : (0 < x)%Q → Qeq_bool x 0 = false.
Proof.
  intros Hx. destruct (Qeq_bool x 0) eqn:E; [|done].
  apply Qeq_bool_eq in E. rewrite E in Hx. by apply Qlt_irrefl in Hx.
Qed.

Lemma sum_volumes_totals (meshes : Dict.t Trimesh.t) tv fvo :
  NoDup (Dict.keys meshes) →
  (sum_volumes meshes).2 = inr (tv, fvo) → volume_totals meshes = (tv, fvo).
Proof. intros Hnd. rewrite sum_volumes_result by done. by intros [=]. Qed.

(** C1 (as amended). When exactly one link is forearm-named and that link is
    not itself a repeated (finger- or knuckle-named) link, the total weighted
    volume is positive and the share of the other links is positive, the
    estimation runs to completion and the total mass it recomputes from the
    assigned densities (repeated links counted four times) equals the
    requested target mass, for every redistribution fraction. *)
Theorem redistribution_conserves_mass f total_mass (meshes : Dict.t Trimesh.t)
    k0 m0 total_volume forearm_volume :
  NoDup (Dict.keys meshes) →
  forearm_links meshes = [(k0, m0)] →
  is_repeated k0 = false →
  (sum_volumes meshes).2 = inr (total_volume, Some forearm_volume) →
  (0 < total_volume)%Q →
  (0 < 1 - forearm_volume / total_volume)%Q →
  ∃ progress recomputed doc,
    estimate f total_mass meshes =
      (progress ++ [Print (MsgTotalMass recomputed);
                    ExportXml output_file doc;
                    Print (MsgWritten output_file)], inr ()) ∧
    (recomputed == total_mass)%Q.
Proof.
  intros Hnd Hone Hrep Hsum Htv Hp.
  pose proof (sum_volumes_totals _ _ _ Hnd Hsum) as Htot.
  rewrite estimate_eq, redistribute_eq, Htot by done. cbn [fst snd].
  rewrite (Qeq_bool_pos _ Htv), assign_all_defined by (by apply Qeq_bool_pos).
  cbn [fst snd].
  eexists (_ ++ [_]), _, _. split.
  { rewrite <- app_assoc. reflexivity. }
  assert (forearm_volume = Trimesh.volume m0) as ->.
  { pose proof (forearm_volume_from (0%Q, None) meshes) as Hfv.
    fold (volume_totals meshes) in Hfv. rewrite Htot, Hone in Hfv.
    by injection Hfv. }
  assert (weighted_sum (λ _, 1) meshes == total_volume)%Q as HT.
  { pose proof (total_volume_from (0%Q, None) meshes) as HT.
    fold (volume_totals meshes) in HT. rewrite Htot in HT.
    cbn [fst] in HT. rewrite HT. ring. }
  rewrite mass_sum_from, weighted_sum_density, HT.
  rewrite (forearm_weight_one meshes k0 m0 Hone Hrep).
  assert (0 < total_volume - Trimesh.volume m0)%Q as Hdiff.
  { assert (total_volume - Trimesh.volume m0
            == (1 - Trimesh.volume m0 / total_volume) * total_volume)%Q as ->.
    { field. intros H0. rewrite H0 in Htv. by apply Qlt_irrefl in Htv. }
    by apply Qmult_lt_0_compat. }
  field. split; intros H0.
  - rewrite H0 in Htv. by apply Qlt_irrefl in Htv.
  - rewrite H0 in Hdiff. by apply Qlt_irrefl in Hdiff.
Qed.

Lemma redistribution_conserves_mass_witness :
  ∃ progress recomputed doc,
    estimate (1 # 2) (42 # 10) scenario_meshes =
      (progress ++ [Print (MsgTotalMass recomputed);
                    ExportXml output_file doc;
                    Print (MsgWritten output_file)], inr ()) ∧
    (recomputed == 42 # 10)%Q.
Proof.
  apply (redistribution_conserves_mass (1 # 2) (42 # 10) scenario_meshes
           "forearm" (example_mesh 1)
           (volume_totals scenario_meshes).1 1%Q).
  - apply (bool_decide_unpack _). vm_compute. exact I.
  - reflexivity.
  - reflexivity.
  - vm_compute. reflexivity.
  - vm_compute. reflexivity.
  - vm_compute. reflexivity.
Defined.

(** C1 (counterexample). With a single forearm-named link that is also
    knuckle-named, the total volume and the share of the other links are
    positive, yet the recomputed total mass differs from the target. *)
Lemma mass_not_conserved_for_repeated_forearm :
  ∃ total_volume forearm_volume recomputed doc,
    (sum_volumes repeated_forearm_meshes).2
      = inr (total_volume, Some forearm_volume) ∧
    (0 < total_volume)%Q ∧
    (0 < 1 - forearm_volume / total_volume)%Q ∧
    estimate forearm_mass_redistribute_percentage (42 # 10)
      repeated_forearm_meshes =
      ((sum_volumes repeated_forearm_meshes).1
        ++ [Print (MsgAverageDensity ((42 # 10) / total_volume));
            Print (MsgTotalMass recomputed);
            ExportXml output_file doc;
            Print (MsgWritten output_file)], inr ()) ∧
    ¬ (recomputed == 42 # 10)%Q.
Proof.
  do 4 eexists. split_and!.
  - vm_compute. reflexivity.
  - reflexivity.
  - reflexivity.
  - vm_compute. reflexivity.
  - vm_compute. discriminate.
Qed.

Lemma total_volume_counts_repeated_four_times_witness :
  NoDup (Dict.keys scenario_meshes) ∧
  ∃ total_volume forearm_volume,
    (sum_volumes scenario_meshes).2 = inr (total_volume, forearm_volume) ∧
    (total_volume ==
       Qsum (volumes_where false scenario_meshes)
       + 4 * Qsum (volumes_where true scenario_meshes))%Q.
Proof.
  assert (NoDup (Dict.keys scenario_meshes)) as Hnd.
  { apply (bool_decide_unpack _). vm_compute. exact I. }
  split; [exact Hnd|].
  exact (total_volume_counts_repeated_four_times scenario_meshes Hnd).
Defined.

(** ** The distinguished link *)

Lemma estimate_links_result f rho p (meshes meshes' : Dict.t Trimesh.t)
    mass inertia centre_of_mass :
  NoDup (Dict.keys meshes) →
  (estimate_links f rho p meshes).2
    = inr (meshes', mass, inertia, centre_of_mass) →
  meshes' = with_densities f rho p meshes.
Proof.
  intros Hnd. rewrite estimate_links_eq by done. cbn [snd].
  destruct (assign_all f rho p meshes) as [e|d] eqn:Ea; [done|].
  intros [= <- _ _ _]. by apply assign_all_result.
Qed.

Lemma forearm_links_reduced f rho p (meshes : Dict.t Trimesh.t) k m :
  (k, m) ∈ with_densities f rho p meshes → is_forearm k = true →
  Trimesh.density m = ((1 - f) * rho)%Q.
Proof.
  unfold with_densities. intros Hin Hk.
  apply list_elem_of_fmap in Hin as ([k' m'] & [= -> ->] & _).
  cbn [fst snd Trimesh.set_density Trimesh.density].
  unfold density_for. by rewrite Hk.
Qed.

(** C3. With a positive target mass, a positive total volume and a
    redistribution fraction strictly between 0 and 1, the density that the
    loop of lines 70-78 leaves on a forearm-named link is
    (1 - fraction) * average_density, which is strictly less than
    average_density. *)
Theorem forearm_density_below_average f total_mass total_volume p
    (meshes meshes' : Dict.t Trimesh.t) mass inertia centre_of_mass :
  (0 < total_mass)%Q → (0 < total_volume)%Q → (0 < f)%Q → (f < 1)%Q →
  NoDup (Dict.keys meshes) →
  (estimate_links f (total_mass / total_volume) p meshes).2
    = inr (meshes', mass, inertia, centre_of_mass) →
  ∀ k m, (k, m) ∈ meshes' → is_forearm k = true →
    Trimesh.density m = ((1 - f) * (total_mass / total_volume))%Q ∧
    (Trimesh.density m < total_mass / total_volume)%Q.
Proof.
  intros HM Htv Hf0 Hf1 Hnd Hrun k m Hin Hk.
  apply estimate_links_result in Hrun as ->; [|done].
  rewrite (forearm_links_reduced _ _ _ _ _ _ Hin Hk). split; [done|].
  assert (0 < total_mass / total_volume)%Q as Havg.
  { apply Qlt_shift_div_l; [done|]. by rewrite Qmult_0_l. }
  nra.
Qed.

Lemma forearm_density_below_average_witness :
  ∃ m,
    Dict.get "forearm"
      (with_densities (1 # 2) ((42 # 10) / (19 # 10)) (9 # 19) scenario_meshes)
    = Some m ∧
    (Trimesh.density m < (42 # 10) / (19 # 10))%Q.
Proof.
  set (d := with_densities (1 # 2) ((42 # 10) / (19 # 10)) (9 # 19)
              scenario_meshes).
  exists (Trimesh.set_density
            (density_for (1 # 2) ((42 # 10) / (19 # 10)) (9 # 19) "forearm")
            (example_mesh 1)).
  split; [reflexivity|].
  refine (proj2 (forearm_density_below_average (1 # 2) (42 # 10) (19 # 10)
                   (9 # 19) scenario_meshes d
                   (records d).1.1 (records d).1.2 (records d).2
                   _ _ _ _ _ _ "forearm" _ _ _)).
  - reflexivity.
  - reflexivity.
  - reflexivity.
  - reflexivity.
  - apply (bool_decide_unpack _). vm_compute. exact I.
  - rewrite estimate_links_eq
      by (apply (bool_decide_unpack _); vm_compute; exact I).
    rewrite assign_all_defined by reflexivity. reflexivity.
  - apply list_elem_of_further, list_elem_of_here.
  - reflexivity.
Defined.

(** C10 (as amended). The forearm volume kept by the loop of lines 46-56 is
    the volume of the last forearm-named link in iteration order (the order
    in which the link names were first inserted, that of the sorted file
    names), and the loop of lines 70-78 gives every forearm-named link the
    reduced density (1 - fraction) * average_density. *)
Theorem forearm_volume_is_last_match f rho p (meshes : Dict.t Trimesh.t) :
  NoDup (Dict.keys meshes) →
  (∃ total_volume,
     (sum_volumes meshes).2
       = inr (total_volume,
              (λ e, Trimesh.volume e.2) <$> last (forearm_links meshes))) ∧
  (∀ meshes' mass inertia centre_of_mass,
     (estimate_links f rho p meshes).2
       = inr (meshes', mass, inertia, centre_of_mass) →
     Dict.keys meshes' = Dict.keys meshes ∧
     ∀ k m, (k, m) ∈ meshes' → is_forearm k = true →
       Trimesh.density m = ((1 - f) * rho)%Q).
Proof.
  intros Hnd. split.
  - exists (volume_totals meshes).1. rewrite sum_volumes_result by done.
    f_equal. unfold volume_totals at 1.
    rewrite (surjective_pairing (foldl _ _ _)). f_equal.
    rewrite forearm_volume_from. by destruct (last (forearm_links meshes)).
  - intros meshes' mass inertia com Hrun.
    apply estimate_links_result in Hrun as ->; [|done].
    split; [apply keys_with_densities|].
    intros k m. apply forearm_links_reduced.
Qed.

Lemma forearm_volume_is_last_match_witness :
  (∃ total_volume,
     (sum_volumes two_forearm_meshes).2
       = inr (total_volume, Some (1 # 4)%Q)) ∧
  ∃ meshes' mass inertia centre_of_mass m1 m2,
    (estimate_links (1 # 2) ((42 # 10) / (7 # 4)) (6 # 7)
       two_forearm_meshes).2
      = inr (meshes', mass, inertia, centre_of_mass) ∧
    Dict.keys meshes' = ["forearm"; "forearm_cover"; "palm"] ∧
    Dict.get "forearm" meshes' = Some m1 ∧
    Dict.get "forearm_cover" meshes' = Some m2 ∧
    Trimesh.density m1 = ((1 - (1 # 2)) * ((42 # 10) / (7 # 4)))%Q ∧
    Trimesh.density m2 = ((1 - (1 # 2)) * ((42 # 10) / (7 # 4)))%Q.
Proof.
  assert (NoDup (Dict.keys two_forearm_meshes)) as Hnd.
  { apply (bool_decide_unpack _). vm_compute. exact I. }
  destruct (forearm_volume_is_last_match (1 # 2) ((42 # 10) / (7 # 4))
              (6 # 7) two_forearm_meshes Hnd) as [Hvolume Hdensity].
  split; [exact Hvolume|].
  set (d := with_densities (1 # 2) ((42 # 10) / (7 # 4)) (6 # 7)
              two_forearm_meshes).
  assert ((estimate_links (1 # 2) ((42 # 10) / (7 # 4)) (6 # 7)
             two_forearm_meshes).2
          = inr (d, (records d).1.1, (records d).1.2, (records d).2))
    as Hrun.
  { rewrite estimate_links_eq by exact Hnd.
    rewrite assign_all_defined by reflexivity. reflexivity. }
  destruct (Hdensity _ _ _ _ Hrun) as [Hkeys Hreduced].
  exists d, (records d).1.1, (records d).1.2, (records d).2.
  exists (Trimesh.set_density
            (density_for (1 # 2) ((42 # 10) / (7 # 4)) (6 # 7) "forearm")
            (example_mesh 1)).
  exists (Trimesh.set_density
            (density_for (1 # 2) ((42 # 10) / (7 # 4)) (6 # 7)
               "forearm_cover")
            (example_mesh (1 # 4))).
  split_and!.
  - exact Hrun.
  - exact Hkeys.
  - reflexivity.
  - reflexivity.
  - apply (Hreduced "forearm"); [apply list_elem_of_here|reflexivity].
  - apply (Hreduced "forearm_cover");
      [apply list_elem_of_further, list_elem_of_here|reflexivity].
Defined.

(** ** Loops that may fail *)

Lemma for_each_inv {A S} (P : S → Prop) (l : list A) (body : A → S → M S)
    s t s' :
  (∀ x s1 t1 s2, x ∈ l → P s1 → body x s1 = (t1, inr s2) → P s2) →
  P s → for_each l body s = (t, inr s') → P s'.
Proof.
  revert s t. induction l as [|x l IH]; intros s t Hbody Hs.
  - by intros [= _ <-].
  - rewrite for_each_cons. intros (t1 & s1 & t2 & H1 & H2 & _)%bind_inr_inv.
    apply (IH s1 t2); [|by apply (Hbody x s t1); [left|..]|done].
    intros y sa ta sb Hy. apply Hbody. by right.
Qed.

Lemma for_each_failure {A S} (l : list A) (body : A → S → M S) s t e :
  for_each l body s = (t, inl e) → ∃ x s1, x ∈ l ∧ (body x s1).2 = inl e.
Proof.
  revert s t. induction l as [|x l IH]; intros s t; [done|].
  rewrite for_each_cons, bind_unfold.
  destruct (body x s) as [t1 [e1|s1]] eqn:E.
  - intros [= _ <-]. exists x, s. split; [left|by rewrite E].
  - destruct (for_each l body s1) as [t2 r] eqn:E2. cbn [fst snd].
    intros [= _ ->]. destruct (IH _ _ E2) as (y & sy & Hy & Hb).
    exists y, sy. split; [by right|done].
Qed.

(** ** Whole runs *)

Section Runs.

Context (py_float : string → option Q).
Context (trimesh_load : string → option Trimesh.t).

Lemma read_total_mass_quiet argv : quiet (read_total_mass py_float argv).
Proof.
  unfold read_total_mass. apply quiet_bind; [|intros x; by apply quiet_bind].
  destruct argv as [|prog [|arg rest]]; [done..|].
  unfold float. destruct (py_float arg); [|done]. rewrite bind_pure.
  by destruct (Qlt_le_dec 0 q).
Qed.

Lemma load_body_eq b (d : Dict.t Trimesh.t) :
  (emit (Load b);;
   mesh ← match trimesh_load b with
          | Some m => mret m
          | None => raise (LoadError b)
          end;
   mret (Dict.set (PyStr.splitext_root b) mesh d))
  = match trimesh_load b with
    | Some m => ([Load b], inr (Dict.set (PyStr.splitext_root b) m d))
    | None => ([Load b], inl (LoadError b))
    end.
Proof. rewrite emit_bind. by destruct (trimesh_load b). Qed.

Lemma load_meshes_quiet listing : quiet (load_meshes trimesh_load listing).
Proof.
  unfold load_meshes. apply quiet_bind; [done|intros _].
  apply quiet_bind; [by destruct listing|intros l].
  apply quiet_for_each. intros b d. rewrite load_body_eq.
  by destruct (trimesh_load b).
Qed.

Lemma load_meshes_some l :
  load_meshes trimesh_load (Some l) =
  (Listdir ::
     (for_each (PyStr.sort l)
        (λ mesh_basename meshes,
           emit (Load mesh_basename);;
           mesh ← match trimesh_load mesh_basename with
                  | Some m => mret m
                  | None => raise (LoadError mesh_basename)
                  end;
           mret (Dict.set (PyStr.splitext_root mesh_basename) mesh meshes))
        Dict.empty).1,
   (for_each (PyStr.sort l)
        (λ mesh_basename meshes,
           emit (Load mesh_basename);;
           mesh ← match trimesh_load mesh_basename with
                  | Some m => mret m
                  | None => raise (LoadError mesh_basename)
                  end;
           mret (Dict.set (PyStr.splitext_root mesh_basename) mesh meshes))
        Dict.empty).2).
Proof.
  unfold load_meshes. rewrite emit_bind, bind_pure. done.
Qed.

Lemma elem_of_sort b l : b ∈ PyStr.sort l ↔ b ∈ l.
Proof. unfold PyStr.sort. by rewrite merge_sort_Permutation. Qed.

Lemma load_meshes_keys l (meshes : Dict.t Trimesh.t) :
  (load_meshes trimesh_load (Some l)).2 = inr meshes →
  NoDup (Dict.keys meshes) ∧
  ∀ k, k ∈ Dict.keys meshes → ∃ b, b ∈ l ∧ k = PyStr.splitext_root b.
Proof.
  rewrite load_meshes_some. cbn [snd].
  destruct (for_each _ _ _) as [t r] eqn:E. cbn [snd]. intros ->.
  revert E.
  apply (for_each_inv
           (λ d : Dict.t Trimesh.t,
              NoDup (Dict.keys d) ∧
              ∀ k, k ∈ Dict.keys d → ∃ b, b ∈ l ∧ k = PyStr.splitext_root b)).
  - intros b d t1 d' Hb [Hnd Hkeys]. rewrite load_body_eq.
    destruct (trimesh_load b) as [m|]; [|done]. intros [= _ <-]. split.
    + by apply NoDup_keys_set.
    + intros k. rewrite keys_set. case_decide; [apply Hkeys|].
      intros [Hk| ->%list_elem_of_singleton]%elem_of_app; [by apply Hkeys|].
      exists b. split; [by apply elem_of_sort|done].
  - split; [apply NoDup_nil_2|]. intros k Hk. by apply elem_of_nil in Hk.
Qed.

Lemma load_meshes_failure l e :
  (load_meshes trimesh_load (Some l)).2 = inl e → ∃ b, b ∈ l ∧ e = LoadError b.
Proof.
  rewrite load_meshes_some. cbn [snd].
  destruct (for_each _ _ _) as [t r] eqn:E. cbn [snd]. intros ->.
  apply for_each_failure in E as (b & d & Hb & Hbody).
  rewrite load_body_eq in Hbody. exists b. split; [by apply elem_of_sort|].
  destruct (trimesh_load b); cbn [snd] in Hbody; congruence.
Qed.

Lemma estimate_all_or_nothing f total_mass (meshes : Dict.t Trimesh.t) :
  NoDup (Dict.keys meshes) →
  all_or_nothing
    (λ doc, ∃ total_volume forearm_volume,
       (sum_volumes meshes).2 = inr (total_volume, Some forearm_volume) ∧
       doc = document_of
               (with_densities f (total_mass / total_volume)
                  (1 - forearm_volume / total_volume) meshes))
    (estimate f total_mass meshes).
Proof.
  intros Hnd. rewrite estimate_eq, redistribute_eq by done.
  pose proof (sum_volumes_quiet meshes) as Hq. unfold quiet in Hq.
  pose proof (sum_volumes_result meshes Hnd) as Hs.
  destruct (volume_totals meshes) as [tv fvo]. cbn [fst snd].
  destruct (Qeq_bool tv 0); cbn [fst snd raise all_or_nothing].
  { by rewrite exports_app, Hq. }
  destruct fvo as [fv|]; cbn [fst snd all_or_nothing].
  2: { by rewrite exports_app, Hq. }
  destruct (assign_all f (total_mass / tv) (1 - fv / tv) meshes)
    as [e|meshes'] eqn:Ea; cbn [fst snd all_or_nothing].
  { by rewrite exports_app, Hq. }
  apply assign_all_result in Ea as ->.
  rewrite exports_app, Hq. eexists. split; [done|]. by exists tv, fv.
Qed.

Lemma main_all_or_nothing argv listing :
  all_or_nothing
    (λ doc, ∃ total_mass meshes total_volume forearm_volume,
       (read_total_mass py_float argv).2 = inr total_mass ∧
       (load_meshes trimesh_load listing).2 = inr meshes ∧
       NoDup (Dict.keys meshes) ∧
       (sum_volumes meshes).2 = inr (total_volume, Some forearm_volume) ∧
       doc = document_of
               (with_densities forearm_mass_redistribute_percentage
                  (total_mass / total_volume)
                  (1 - forearm_volume / total_volume) meshes))
    (main py_float trimesh_load argv listing).
Proof.
  unfold main.
  apply all_or_nothing_bind; [apply read_total_mass_quiet|].
  intros t1 total_mass Hread.
  apply all_or_nothing_bind; [apply load_meshes_quiet|].
  intros t2 meshes Hload.
  assert (NoDup (Dict.keys meshes)) as Hnd.
  { destruct listing as [l|]; [|done].
    apply (load_meshes_keys l). by rewrite Hload. }
  pose proof (estimate_all_or_nothing forearm_mass_redistribute_percentage
                total_mass meshes Hnd) as He.
  unfold all_or_nothing in *.
  destruct (estimate _ _ _) as [t [e|[]]]; [done|].
  destruct He as (doc & Hdoc & tv & fv & Hs & ->).
  eexists. split; [done|]. exists total_mass, meshes, tv, fv.
  by rewrite Hread, Hload.
Qed.

Lemma main_success argv listing tr :
  main py_float trimesh_load argv listing = (tr, inr ()) →
  ∃ total_mass meshes total_volume forearm_volume,
    (read_total_mass py_float argv).2 = inr total_mass ∧
    (load_meshes trimesh_load listing).2 = inr meshes ∧
    NoDup (Dict.keys meshes) ∧
    (sum_volumes meshes).2 = inr (total_volume, Some forearm_volume) ∧
    exports tr =
      [(output_file,
        document_of
          (with_densities forearm_mass_redistribute_percentage
             (total_mass / total_volume)
             (1 - forearm_volume / total_volume) meshes))].
Proof.
  intros Hrun. pose proof (main_all_or_nothing argv listing) as H.
  rewrite Hrun in H. cbn [all_or_nothing] in H.
  destruct H as (doc & Hdoc & M0 & meshes & tv & fv & ? & ? & ? & ? & ->).
  by exists M0, meshes, tv, fv.
Qed.

Lemma sort_permutation l1 l2 : l1 ≡ₚ l2 → PyStr.sort l1 = PyStr.sort l2.
Proof.
  intros Hp. unfold PyStr.sort.
  apply (StronglySorted_unique String.le).
  - apply StronglySorted_merge_sort; apply _.
  - apply StronglySorted_merge_sort; apply _.
  - by rewrite !merge_sort_Permutation.
Qed.

Lemma links_of_document (d : Dict.t Trimesh.t) :
  ((λ e : string * Trimesh.t, (e.1, link_entry e.2)) <$> d).*1 = Dict.keys d.
Proof.
  unfold Dict.keys. rewrite <- list_fmap_compose. by apply list_fmap_ext.
Qed.

Lemma get_fmap {V W} (g : string → V → W) k (d : Dict.t V) :
  Dict.get k ((λ e, (e.1, g e.1 e.2)) <$> d) = g k <$> Dict.get k d.
Proof.
  induction d as [|[k' v] d IH]; [done|].
  rewrite fmap_cons. cbn [Dict.get fst snd].
  destruct (String.eqb_spec k k') as [->|]; [done|]. apply IH.
Qed.

(** C6. A run that returns has written one document; it holds exactly one
    model, and the model holds exactly one link entry per loaded mesh, under
    the names of the meshes and in their order, whether or not a link is
    repeated. *)
Theorem one_link_entry_per_mesh argv listing tr :
  main py_float trimesh_load argv listing = (tr, inr ()) →
  ∃ meshes doc model,
    (load_meshes trimesh_load listing).2 = inr meshes ∧
    exports tr = [(output_file, doc)] ∧
    Sdf.models doc = [model] ∧
    length (Sdf.links model) = length meshes ∧
    (Sdf.links model).*1 = Dict.keys meshes.
Proof.
  intros (M0 & meshes & tv & fv & _ & Hload & _ & _ & Hex)%main_success.
  eexists meshes, _, _. split_and!; [done|exact Hex|done|..];
    cbn [Sdf.links].
  - unfold with_densities. by rewrite !length_fmap.
  - by rewrite links_of_document, keys_with_densities.
Qed.

(** C7. In a run that returns, the entry of every link carries the mass of
    its mesh at the assigned density, the components [0][0], [1][1],
    [2][2], [0][1], [0][2] and [1][2] of its inertia tensor as ixx, iyy,
    izz, ixy, ixz and iyz, and a pose made of the centre of mass followed
    by three zeros. *)
Theorem link_entry_carries_inertial_properties argv listing tr :
  main py_float trimesh_load argv listing = (tr, inr ()) →
  ∃ total_mass meshes total_volume forearm_volume doc model,
    (read_total_mass py_float argv).2 = inr total_mass ∧
    (load_meshes trimesh_load listing).2 = inr meshes ∧
    (sum_volumes meshes).2 = inr (total_volume, Some forearm_volume) ∧
    exports tr = [(output_file, doc)] ∧
    Sdf.models doc = [model] ∧
    ∀ link_name mesh, (link_name, mesh) ∈ meshes →
      ∃ link,
        Dict.get link_name (Sdf.links model) = Some link ∧
        let mesh' :=
          Trimesh.set_density
            (density_for forearm_mass_redistribute_percentage
               (total_mass / total_volume)
               (1 - forearm_volume / total_volume) link_name) mesh in
        let tensor := Trimesh.moment_inertia mesh' in
        let '(c0, c1, c2) := Trimesh.center_mass mesh' in
        Sdf.mass link = Trimesh.mass mesh' ∧
        tensor_at tensor 0 0 = Some (Sdf.ixx (Sdf.inertia link)) ∧
        tensor_at tensor 1 1 = Some (Sdf.iyy (Sdf.inertia link)) ∧
        tensor_at tensor 2 2 = Some (Sdf.izz (Sdf.inertia link)) ∧
        tensor_at tensor 0 1 = Some (Sdf.ixy (Sdf.inertia link)) ∧
        tensor_at tensor 0 2 = Some (Sdf.ixz (Sdf.inertia link)) ∧
        tensor_at tensor 1 2 = Some (Sdf.iyz (Sdf.inertia link)) ∧
        Sdf.pose link = [c0; c1; c2; 0; 0; 0]%Q.
Proof.
  intros (M0 & meshes & tv & fv & Hread & Hload & Hnd & Hs & Hex)%main_success.
  eexists M0, meshes, tv, fv, _, _.
  split_and!; [done|done|done|exact Hex|done|].
  intros k m Hin. cbn [Sdf.links].
  unfold with_densities. rewrite <- list_fmap_compose.
  rewrite (get_fmap
             (λ k m, link_entry
                       (Trimesh.set_density
                          (density_for forearm_mass_redistribute_percentage
                             (M0 / tv) (1 - fv / tv) k) m))).
  rewrite (get_elem_of k m) by done. eexists. split; [done|].
  unfold link_entry, Trimesh.moment_inertia, Trimesh.mass.
  cbn [Trimesh.set_density Trimesh.unit_inertia Trimesh.center_mass
       Trimesh.density Trimesh.volume].
  destruct (Trimesh.unit_inertia m)
    as [[[[a00 a01] a02] [[a10 a11] a12]] [[a20 a21] a22]].
  destruct (Trimesh.center_mass m) as [[c0 c1] c2].
  done.
Qed.

(** C8. Every run either fails without writing any file, or returns after
    writing the output file exactly once, with a document whose single model
    holds an entry for every loaded mesh. *)
Theorem output_is_all_or_nothing argv listing :
  match (main py_float trimesh_load argv listing).2 with
  | inl _ => exports (main py_float trimesh_load argv listing).1 = []
  | inr _ =>
      ∃ meshes doc model,
        (load_meshes trimesh_load listing).2 = inr meshes ∧
        exports (main py_float trimesh_load argv listing).1
          = [(output_file, doc)] ∧
        Sdf.models doc = [model] ∧
        (Sdf.links model).*1 = Dict.keys meshes
  end.
Proof.
  pose proof (main_all_or_nothing argv listing) as H.
  destruct (main py_float trimesh_load argv listing) as [tr [e|[]]];
    cbn [fst snd all_or_nothing] in *; [done|].
  destruct H as (doc & Hdoc & M0 & meshes & tv & fv & _ & Hload & _ & _ & ->).
  eexists meshes, _, _. split_and!; [done|exact Hdoc|done|].
  cbn [Sdf.links]. by rewrite links_of_document, keys_with_densities.
Qed.

(** C9. The run is a function of the arguments, of the set of file names in
    the mesh directory and of the contents of the files: the order in which
    the directory is enumerated does not change the events of the run, its
    result or the document written. *)
Theorem run_is_deterministic argv l1 l2 :
  l1 ≡ₚ l2 →
  main py_float trimesh_load argv (Some l1)
  = main py_float trimesh_load argv (Some l2).
Proof.
  intros Hp. unfold main. apply bind_ext. intros total_mass.
  f_equal. rewrite !load_meshes_some. by rewrite (sort_permutation l1 l2).
Qed.

Lemma forearm_links_none (d : Dict.t Trimesh.t) :
  (∀ k, k ∈ Dict.keys d → is_forearm k = false) → forearm_links d = [].
Proof.
  unfold forearm_links. induction d as [|[k m] d IH]; intros Hk; [done|].
  rewrite filter_cons. cbn [fst]. rewrite (Hk k) by left.
  rewrite decide_False by done. apply IH. intros k' Hk'. apply Hk. by right.
Qed.

(** C4 (as amended). When no link name contains the forearm token, the run
    fails with an uncaught exception and writes no file.  The exception
    comes from the argument handling, from a mesh that cannot be loaded,
    from the division by a zero total volume on line 59, or is the
    unbound-variable error raised when line 63 reads [forearm_volume],
    before that line divides.  Once the arguments are accepted it is never
    an error that the script reports itself. *)
Theorem missing_forearm_fails argv l :
  (∀ b, b ∈ l → is_forearm (PyStr.splitext_root b) = false) →
  ∃ tr e,
    main py_float trimesh_load argv (Some l) = (tr, inl e) ∧
    exports tr = [] ∧
    ((read_total_mass py_float argv).2 = inl e ∨
     (∃ b, b ∈ l ∧ e = LoadError b) ∨
     e = ZeroDivisionError AverageDensity ∨
     e = UnboundLocalError "forearm_volume") ∧
    (∀ total_mass,
       (read_total_mass py_float argv).2 = inr total_mass →
       ¬ explicit_error e).
Proof.
  intros Hno.
  assert (∃ e,
            (main py_float trimesh_load argv (Some l)).2 = inl e ∧
            ((read_total_mass py_float argv).2 = inl e ∨
             (∃ b, b ∈ l ∧ e = LoadError b) ∨
             e = ZeroDivisionError AverageDensity ∨
             e = UnboundLocalError "forearm_volume")) as (e & He & Hcase).
  { unfold main. rewrite bind_result.
    destruct (read_total_mass py_float argv).2 as [e|total_mass]; [eauto|].
    rewrite bind_result.
    destruct (load_meshes trimesh_load (Some l)).2 as [e|meshes] eqn:Hload.
    { exists e. split; [done|]. right. left. by apply load_meshes_failure. }
    destruct (load_meshes_keys l meshes Hload) as [Hnd Hkeys].
    assert ((volume_totals meshes).2 = None) as Hfv.
    { unfold volume_totals. rewrite forearm_volume_from, forearm_links_none.
      - done.
      - intros k (b & Hb & ->)%Hkeys. by apply Hno. }
    rewrite estimate_eq, redistribute_eq, Hfv by done. cbn [snd].
    destruct (Qeq_bool (volume_totals meshes).1 0); cbn [snd raise]; eauto 6. }
  pose proof (main_all_or_nothing argv (Some l)) as Haon.
  destruct (main py_float trimesh_load argv (Some l)) as [tr r].
  cbn [snd] in He. subst r. exists tr, e. split_and!; [done..|].
  intros total_mass Hread [status ->].
  destruct Hcase as [H|[(b & _ & H)|[H|H]]]; congruence.
Qed.

(** C5. A target-mass argument that is given and not positive makes the run
    print the usage message and exit with status 1 before the directory is
    listed, a mesh is loaded or a file is written; without the argument the
    target mass is 4.2. *)
Theorem command_line_target_mass :
  (∀ prog arg rest x listing,
     py_float arg = Some x → (x <= 0)%Q →
     main py_float trimesh_load (prog :: arg :: rest) listing
     = ([Print MsgUsageError], inl (SystemExit 1))) ∧
  (∀ argv listing,
     (length argv ≤ 1)%nat →
     read_total_mass py_float argv
       = ([Print (MsgEstimating (42 # 10))], inr (42 # 10)%Q) ∧
     main py_float trimesh_load argv listing
     = (print (MsgEstimating (42 # 10));;
        meshes ← load_meshes trimesh_load listing;
        estimate forearm_mass_redistribute_percentage (42 # 10) meshes)).
Proof.
  split.
  - intros prog arg rest x listing Hx Hle.
    unfold main, read_total_mass, float. rewrite Hx, bind_pure.
    destruct (Qlt_le_dec 0 x) as [Hlt|_].
    { by apply Qlt_not_le in Hlt. }
    by rewrite !bind_unfold.
  - intros argv listing Hlen.
    assert (read_total_mass py_float argv
            = ([Print (MsgEstimating (42 # 10))], inr (42 # 10)%Q)) as Hread.
    { destruct argv as [|prog [|arg rest]]; [done|done|]. simpl in Hlen. lia. }
    split; [done|]. unfold main. rewrite Hread.
    by rewrite print_bind, !bind_unfold.
Qed.

End Runs.

(** ** The theorems at the example inputs *)

Lemma one_link_entry_per_mesh_witness :
  ∃ meshes doc model,
    (load_meshes example_load
       (Some ["palm.dae"; "forearm.dae"; "fingerfoo.dae"])).2 = inr meshes ∧
    exports
      (main example_float example_load ["prog"]
         (Some ["palm.dae"; "forearm.dae"; "fingerfoo.dae"])).1
      = [(output_file, doc)] ∧
    Sdf.models doc = [model] ∧
    length (Sdf.links model) = length meshes ∧
    (Sdf.links model).*1 = Dict.keys meshes.
Proof.
  apply (one_link_entry_per_mesh example_float example_load ["prog"]
           (Some ["palm.dae"; "forearm.dae"; "fingerfoo.dae"])).
  vm_compute. reflexivity.
Defined.

Lemma link_entry_carries_inertial_properties_witness :
  ∃ total_mass meshes total_volume forearm_volume doc model,
    (read_total_mass example_float ["prog"; "4.2"]).2 = inr total_mass ∧
    (load_meshes example_load
       (Some ["palm.dae"; "forearm.dae"; "fingerfoo.dae"])).2 = inr meshes ∧
    (sum_volumes meshes).2 = inr (total_volume, Some forearm_volume) ∧
    exports
      (main example_float example_load ["prog"; "4.2"]
         (Some ["palm.dae"; "forearm.dae"; "fingerfoo.dae"])).1
      = [(output_file, doc)] ∧
    Sdf.models doc = [model] ∧
    ∀ link_name mesh, (link_name, mesh) ∈ meshes →
      ∃ link,
        Dict.get link_name (Sdf.links model) = Some link ∧
        let mesh' :=
          Trimesh.set_density
            (density_for forearm_mass_redistribute_percentage
               (total_mass / total_volume)
               (1 - forearm_volume / total_volume) link_name) mesh in
        let tensor := Trimesh.moment_inertia mesh' in
        let '(c0, c1, c2) := Trimesh.center_mass mesh' in
        Sdf.mass link = Trimesh.mass mesh' ∧
        tensor_at tensor 0 0 = Some (Sdf.ixx (Sdf.inertia link)) ∧
        tensor_at tensor 1 1 = Some (Sdf.iyy (Sdf.inertia link)) ∧
        tensor_at tensor 2 2 = Some (Sdf.izz (Sdf.inertia link)) ∧
        tensor_at tensor 0 1 = Some (Sdf.ixy (Sdf.inertia link)) ∧
        tensor_at tensor 0 2 = Some (Sdf.ixz (Sdf.inertia link)) ∧
        tensor_at tensor 1 2 = Some (Sdf.iyz (Sdf.inertia link)) ∧
        Sdf.pose link = [c0; c1; c2; 0; 0; 0]%Q.
Proof.
  apply (link_entry_carries_inertial_properties example_float example_load
           ["prog"; "4.2"]
           (Some ["palm.dae"; "forearm.dae"; "fingerfoo.dae"])).
  vm_compute. reflexivity.
Defined.

Lemma missing_forearm_fails_witness :
  ∃ tr e,
    main example_float example_load ["prog"]
      (Some ["palm.dae"; "fingerfoo.dae"]) = (tr, inl e) ∧
    exports tr = [] ∧
    ((read_total_mass example_float ["prog"]).2 = inl e ∨
     (∃ b, b ∈ ["palm.dae"; "fingerfoo.dae"] ∧ e = LoadError b) ∨
     e = ZeroDivisionError AverageDensity ∨
     e = UnboundLocalError "forearm_volume") ∧
    (∀ total_mass,
       (read_total_mass example_float ["prog"]).2 = inr total_mass →
       ¬ explicit_error e).
Proof.
  apply (missing_forearm_fails example_float example_load ["prog"]
           ["palm.dae"; "fingerfoo.dae"]).
  intros b Hb.
  apply elem_of_cons in Hb as [->|Hb]; [reflexivity|].
  apply elem_of_cons in Hb as [->|Hb]; [reflexivity|].
  by apply elem_of_nil in Hb.
Defined.

(** C4 (counterexample). In a directory with a palm and a finger and no
    forearm the run goes on to print the volumes and the average density,
    prints no message about the missing link, and ends with the
    interpreter's unbound-variable error on line 63, which is not an error
    that the script reports itself. *)
Lemma missing_forearm_is_not_reported :
  main example_float example_load ["prog"]
    (Some ["palm.dae"; "fingerfoo.dae"])
  = ([Print (MsgEstimating (42 # 10)); Listdir;
      Load "fingerfoo.dae"; Load "palm.dae";
      Print (MsgVolume "fingerfoo" (1 # 10)); Print (MsgNote "fingerfoo");
      Print (MsgVolume "palm" (1 # 2));
      Print (MsgAverageDensity ((42 # 10) / (0 + 4 * (1 # 10) + (1 # 2))))],
     inl (UnboundLocalError "forearm_volume")) ∧
  ¬ explicit_error (UnboundLocalError "forearm_volume").
Proof.
  split.
  - vm_compute. reflexivity.
  - intros [status Hstatus]. discriminate Hstatus.
Qed.

Lemma command_line_target_mass_witness :
  main example_float example_load ["prog"; "-1"] (Some ["forearm.dae"])
    = ([Print MsgUsageError], inl (SystemExit 1)) ∧
  main example_float example_load ["prog"; "0"] None
    = ([Print MsgUsageError], inl (SystemExit 1)) ∧
  read_total_mass example_float ["prog"]
    = ([Print (MsgEstimating (42 # 10))], inr (42 # 10)%Q).
Proof.
  destruct (command_line_target_mass example_float example_load)
    as [Hbad Hdefault].
  split_and!.
  - apply (Hbad "prog" "-1" [] (-1)%Q); [reflexivity|].
    unfold Qle. simpl. lia.
  - apply (Hbad "prog" "0" [] 0%Q); [reflexivity|].
    unfold Qle. simpl. lia.
  - apply (Hdefault ["prog"] None). simpl. lia.
Defined.

Lemma run_is_deterministic_witness :
  main example_float example_load ["prog"]
    (Some ["palm.dae"; "forearm.dae"; "fingerfoo.dae"])
  = main example_float example_load ["prog"]
      (Some ["forearm.dae"; "palm.dae"; "fingerfoo.dae"]).
Proof.
  apply (run_is_deterministic example_float example_load ["prog"]).
  apply perm_swap.
Defined.

(** C10 (counterexample). The forearm volume is neither that of the
    forearm-named link whose name is last in lexicographic order (first
    directory), nor that of the link loaded from the forearm-named file that
    is last in the sorted listing (second directory). *)
Lemma forearm_volume_not_of_lexicographically_last :
  (∃ meshes total_volume,
     (load_meshes example_load (Some ["forearm.dae"; "forearm-x.dae"])).2
       = inr meshes ∧
     Dict.keys meshes = ["forearm-x"; "forearm"] ∧
     (sum_volumes meshes).2 = inr (total_volume, Some 1%Q) ∧
     lexicographically_last (forearm_links meshes)
       = Some ("forearm-x", example_mesh 2) ∧
     ¬ (1 == Trimesh.volume (example_mesh 2))%Q) ∧
  (∃ meshes total_volume,
     (load_meshes example_load
        (Some ["forearm.dae"; "forearm.dae.stl"; "forearm.stl"])).2
       = inr meshes ∧
     Dict.keys meshes = ["forearm"; "forearm.dae"] ∧
     (sum_volumes meshes).2 = inr (total_volume, Some 3%Q) ∧
     last_forearm_file ["forearm.dae"; "forearm.dae.stl"; "forearm.stl"]
       = Some "forearm.stl" ∧
     example_load "forearm.stl" = Some (example_mesh 5) ∧
     ¬ (3 == Trimesh.volume (example_mesh 5))%Q).
Proof.
  split.
  - do 2 eexists. split_and!.
    + vm_compute. reflexivity.
    + reflexivity.
    + vm_compute. reflexivity.
    + vm_compute. reflexivity.
    + vm_compute. discriminate.
  - do 2 eexists. split_and!.
    + vm_compute. reflexivity.
    + reflexivity.
    + vm_compute. reflexivity.
    + vm_compute. reflexivity.
    + reflexivity.
    + vm_compute. discriminate.
Qed.

(** ** Further properties of the runs *)

Lemma assign_all_failure f rho p (d : Dict.t Trimesh.t) e :
  assign_all f rho p d = inl e → e = ZeroDivisionError RedistributionFactor.
Proof.
  induction d as [|[k m] d IH]; [done|]. cbn [assign_all].
  unfold assigned_density, divide.
  destruct (is_forearm k); cbn [snd mret M_mret M_ret].
  - destruct (assign_all f rho p d); [|done]. intros [= <-]. by apply IH.
  - destruct (Qeq_bool p 0).
    + rewrite bind_unfold. cbn [snd raise]. by intros [= <-].
    + rewrite bind_pure. cbn [snd mret M_mret M_ret].
      destruct (assign_all f rho p d); [|done]. intros [= <-]. by apply IH.
Qed.

Lemma estimate_failure f total_mass (meshes : Dict.t Trimesh.t) e :
  NoDup (Dict.keys meshes) →
  (estimate f total_mass meshes).2 = inl e →
  e = ZeroDivisionError AverageDensity ∨
  e = UnboundLocalError "forearm_volume" ∨
  e = ZeroDivisionError RedistributionFactor.
Proof.
  intros Hnd. rewrite estimate_eq, redistribute_eq by done. cbn [snd].
  destruct (Qeq_bool (volume_totals meshes).1 0); cbn [snd raise].
  { intros [= <-]. auto. }
  destruct (volume_totals meshes).2 as [fv|]; cbn [snd].
  2: { intros [= <-]. auto. }
  destruct (assign_all _ _ _ _) as [e'|d] eqn:Ea; cbn [snd]; [|done].
  intros [= <-]. right. right. by apply (assign_all_failure _ _ _ _ _ Ea).
Qed.

Section MoreRuns.

Context (py_float : string → option Q).
Context (trimesh_load : string → option Trimesh.t).

Lemma read_total_mass_eq argv :
  read_total_mass py_float argv =
  match argv with
  | _ :: arg :: _ =>
      match py_float arg with
      | None => ([], inl ValueError)
      | Some x =>
          if Qlt_le_dec 0 x then ([Print (MsgEstimating x)], inr x)
          else ([Print MsgUsageError], inl (SystemExit 1))
      end
  | _ => ([Print (MsgEstimating (42 # 10))], inr (42 # 10)%Q)
  end.
Proof.
  unfold read_total_mass, float.
  destruct argv as [|prog [|arg rest]]; [done|done|].
  destruct (py_float arg) as [x|]; [|done]. rewrite bind_pure.
  destruct (Qlt_le_dec 0 x); [|done].
  by rewrite bind_pure, print_bind.
Qed.

Lemma read_total_mass_success argv t total_mass :
  read_total_mass py_float argv = (t, inr total_mass) →
  t = [Print (MsgEstimating total_mass)].
Proof.
  rewrite read_total_mass_eq.
  destruct argv as [|prog [|arg rest]]; [by intros [= <- <-]..|].
  destruct (py_float arg) as [x|]; [|done].
  destruct (Qlt_le_dec 0 x); [|done]. by intros [= <- <-].
Qed.

Lemma read_total_mass_failure argv e :
  (read_total_mass py_float argv).2 = inl e →
  e = ValueError ∨ e = SystemExit 1.
Proof.
  rewrite read_total_mass_eq.
  destruct argv as [|prog [|arg rest]]; [done|done|].
  destruct (py_float arg) as [x|]; [|intros [= <-]; auto].
  destruct (Qlt_le_dec 0 x); [done|]. intros [= <-]. auto.
Qed.

(** The exceptions of the runs of this development. *)
Lemma failure_cases argv listing tr e :
  main py_float trimesh_load argv listing = (tr, inl e) →
  e = ValueError ∨ e = SystemExit 1 ∨
  (e = OSError ∧ listing = None) ∨
  (∃ l b, listing = Some l ∧ b ∈ l ∧ trimesh_load b = None
          ∧ e = LoadError b) ∨
  e = ZeroDivisionError AverageDensity ∨
  e = UnboundLocalError "forearm_volume" ∨
  e = ZeroDivisionError RedistributionFactor.
Proof.
  intros Hrun.
  assert ((main py_float trimesh_load argv listing).2 = inl e) as He
    by (by rewrite Hrun).
  clear Hrun. revert He. unfold main. rewrite bind_result.
  destruct (read_total_mass py_float argv).2 as [e1|total_mass] eqn:Hread.
  { intros [= <-]. apply read_total_mass_failure in Hread as [->| ->]; auto. }
  rewrite bind_result.
  destruct (load_meshes trimesh_load listing).2 as [e2|meshes] eqn:Hload.
  { intros [= <-]. destruct listing as [l|].
    - do 3 right. left.
      rewrite load_meshes_some in Hload. cbn [snd] in Hload.
      destruct (for_each _ _ _) as [t r] eqn:E. cbn [snd] in Hload. subst r.
      apply for_each_failure in E as (b & d & Hb & Hbody).
      rewrite load_body_eq in Hbody. exists l, b.
      destruct (trimesh_load b) eqn:Eb; cbn [snd] in Hbody; [done|].
      injection Hbody as <-. by rewrite <- (elem_of_sort b l).
    - do 2 right. left. by injection Hload as <-. }
  assert (NoDup (Dict.keys meshes)) as Hnd.
  { destruct listing as [l|]; [|done].
    by apply (load_meshes_keys trimesh_load l). }
  intros [H|[H|H]]%estimate_failure; auto 10.
Qed.

End MoreRuns.

Section Lookups.

Context (py_float : string → option Q).
Context (trimesh_load : string → option Trimesh.t).

(** X1. No run fails on a dictionary lookup or on an index: every key read
    from [meshes], [mass], [inertia] and [centre_of_mass] (lines 48, 71,
    88, 96-105) is present, every index into a tensor or a centre of mass is
    in range, and the division of line 63 never raises. *)
Theorem lookups_never_fail argv listing tr e :
  main py_float trimesh_load argv listing = (tr, inl e) →
  (∀ key, e ≠ KeyError key) ∧ e ≠ IndexError ∧
  e ≠ ZeroDivisionError ForearmProportion.
Proof.
  intros Hrun.
  pose proof (failure_cases py_float trimesh_load argv listing tr e Hrun)
    as Hcases.
  split_and!; [intros key|..]; intros ->;
    destruct Hcases as [H|[H|[[H _]|[(l & b & _ & _ & _ & H)|[H|[H|H]]]]]];
    discriminate H.
Qed.

End Lookups.

Lemma lookups_never_fail_witness :
  (∀ key, UnboundLocalError "forearm_volume" ≠ KeyError key) ∧
  UnboundLocalError "forearm_volume" ≠ IndexError ∧
  UnboundLocalError "forearm_volume" ≠ ZeroDivisionError ForearmProportion.
Proof.
  apply (lookups_never_fail example_float example_load ["prog"]
           (Some ["palm.dae"])
           (main example_float example_load ["prog"] (Some ["palm.dae"])).1).
  vm_compute. reflexivity.
Defined.

(** ** Arguments, and the directory of meshes *)

Lemma for_each_app {A S} (l1 l2 : list A) (body : A → S → M S) s :
  for_each (l1 ++ l2) body s = for_each l1 body s ≫= for_each l2 body.
Proof.
  revert s. induction l1 as [|x l1 IH]; intros s.
  - cbn [app for_each]. by rewrite bind_pure.
  - cbn [app]. rewrite !for_each_cons, !bind_unfold.
    destruct (body x s) as [t [e|s1]]; [done|]. rewrite IH, bind_unfold.
    destruct (for_each l1 body s1) as [t1 [e|s2]]; cbn [fst snd]; [done|].
    by rewrite app_assoc.
Qed.

Lemma get_set_eq {V} (k : string) (v : V) (d : Dict.t V) :
  Dict.get k (Dict.set k v d) = Some v.
Proof.
  induction d as [|[k' v'] d IH]; cbn [Dict.set Dict.get].
  - by rewrite String.eqb_refl.
  - destruct (String.eqb_spec k k') as [->|Hne]; cbn [Dict.get].
    + by rewrite String.eqb_refl.
    + destruct (String.eqb_spec k k'); [done|]. apply IH.
Qed.

Lemma get_set_ne {V} (k k' : string) (v : V) (d : Dict.t V) :
  k ≠ k' → Dict.get k' (Dict.set k v d) = Dict.get k' d.
Proof.
  intros Hne. induction d as [|[k0 v0] d IH]; cbn [Dict.set Dict.get].
  - destruct (String.eqb_spec k' k); [by subst|done].
  - destruct (String.eqb_spec k k0) as [->|Hk0]; cbn [Dict.get].
    + destruct (String.eqb_spec k' k0); [by subst|done].
    + destruct (String.eqb_spec k' k0); [done|]. apply IH.
Qed.

Lemma length_set {V} (k : string) (v : V) (d : Dict.t V) :
  (length (Dict.set k v d) ≤ S (length d))%nat.
Proof.
  induction d as [|[k' v'] d IH]; cbn [Dict.set length]; [lia|].
  destruct (String.eqb k k'); cbn [length]; lia.
Qed.

Section Loading.

Context (py_float : string → option Q).
Context (trimesh_load : string → option Trimesh.t).

Lemma insert_file_loaded (d : Dict.t Trimesh.t) b m :
  trimesh_load b = Some m →
  insert_file trimesh_load d b = Dict.set (PyStr.splitext_root b) m d.
Proof. intros Hb. unfold insert_file. by rewrite Hb. Qed.

Lemma load_loop_result l (d d' : Dict.t Trimesh.t) t :
  for_each l
    (λ mesh_basename meshes,
       emit (Load mesh_basename);;
       mesh ← match trimesh_load mesh_basename with
              | Some m => mret m
              | None => raise (LoadError mesh_basename)
              end;
       mret (Dict.set (PyStr.splitext_root mesh_basename) mesh meshes))
    d = (t, inr d') →
  t = Load <$> l ∧ d' = foldl (insert_file trimesh_load) d l ∧
  ∀ b, b ∈ l → is_Some (trimesh_load b).
Proof.
  revert d t. induction l as [|b l IH]; intros d t.
  { intros [= <- <-]. split_and!; [done..|]. by intros b ?%elem_of_nil. }
  rewrite for_each_cons, load_body_eq, bind_unfold.
  destruct (trimesh_load b) as [m|] eqn:Eb; [|done].
  destruct (for_each l _ _) as [t1 r] eqn:E. cbn [fst snd].
  intros [= <- ->]. apply IH in E as (-> & -> & Hall).
  split_and!; [done|..].
  - cbn [foldl]. by rewrite (insert_file_loaded d b m Eb).
  - intros b' [->|Hb']%elem_of_cons; [by rewrite Eb|by apply Hall].
Qed.

Lemma load_loop_success l (d : Dict.t Trimesh.t) :
  (∀ b, b ∈ l → is_Some (trimesh_load b)) →
  for_each l
    (λ mesh_basename meshes,
       emit (Load mesh_basename);;
       mesh ← match trimesh_load mesh_basename with
              | Some m => mret m
              | None => raise (LoadError mesh_basename)
              end;
       mret (Dict.set (PyStr.splitext_root mesh_basename) mesh meshes))
    d = (Load <$> l, inr (foldl (insert_file trimesh_load) d l)).
Proof.
  revert d. induction l as [|b l IH]; intros d Hall; [done|].
  rewrite for_each_cons, load_body_eq, bind_unfold.
  destruct (Hall b) as [m Eb]; [left|]. rewrite Eb.
  rewrite IH by (intros b' Hb'; apply Hall; by right). cbn [fst snd foldl].
  by rewrite (insert_file_loaded d b m Eb).
Qed.

Lemma keys_insert_files l (d : Dict.t Trimesh.t) k :
  k ∈ Dict.keys (foldl (insert_file trimesh_load) d l) ↔
  k ∈ Dict.keys d ∨
  ∃ b, b ∈ l ∧ is_Some (trimesh_load b) ∧ k = PyStr.splitext_root b.
Proof.
  revert d. induction l as [|b l IH]; intros d; cbn [foldl].
  { split; [auto|]. intros [?|(b & []%elem_of_nil & _)]. done. }
  rewrite IH.
  destruct (trimesh_load b) as [m|] eqn:Eb.
  - rewrite (insert_file_loaded d b m Eb), keys_set. split.
    + intros [Hk|(b' & Hb' & Hs & ->)].
      * case_decide; [by left|].
        apply elem_of_app in Hk as [Hk| ->%list_elem_of_singleton];
          [by left|].
        right. exists b. split_and!; [left|by rewrite Eb|done].
      * right. exists b'. split_and!; [by right|done..].
    + intros [Hk|(b' & [->|Hb']%elem_of_cons & Hs & ->)].
      * left. case_decide; [done|]. apply elem_of_app. by left.
      * left. case_decide; [done|]. apply elem_of_app. right.
        by apply list_elem_of_singleton.
      * right. by exists b'.
  - assert (insert_file trimesh_load d b = d) as ->.
    { unfold insert_file. by rewrite Eb. }
    split.
    + intros [Hk|(b' & Hb' & Hs & ->)]; [by left|].
      right. exists b'. split_and!; [by right|done..].
    + intros [Hk|(b' & [->|Hb']%elem_of_cons & Hs & ->)]; [by left|..].
      * rewrite Eb in Hs. by destruct Hs.
      * right. by exists b'.
Qed.

Lemma length_insert_files l (d : Dict.t Trimesh.t) :
  (length (foldl (insert_file trimesh_load) d l) ≤ length d + length l)%nat.
Proof.
  revert d. induction l as [|b l IH]; intros d; cbn [foldl length]; [lia|].
  etrans; [apply IH|]. unfold insert_file.
  destruct (trimesh_load b); [|lia].
  pose proof (length_set (PyStr.splitext_root b) t d). lia.
Qed.

Lemma get_insert_files_other l (d : Dict.t Trimesh.t) k :
  (∀ b, b ∈ l → PyStr.splitext_root b ≠ k) →
  Dict.get k (foldl (insert_file trimesh_load) d l) = Dict.get k d.
Proof.
  revert d. induction l as [|b l IH]; intros d Hne; cbn [foldl]; [done|].
  rewrite IH by (intros b' Hb'; apply Hne; by right).
  unfold insert_file. destruct (trimesh_load b); [|done].
  apply get_set_ne, Hne. by left.
Qed.

(** X2. The loop of lines 38-43 stops at the first file, in sorted order,
    that cannot be loaded: the files before it have been loaded, the
    files after it are not touched, and the run ends with the load error of
    that file. *)
Theorem load_stops_at_first_bad_file l before b after :
  PyStr.sort l = before ++ b :: after →
  (∀ b', b' ∈ before → is_Some (trimesh_load b')) →
  trimesh_load b = None →
  load_meshes trimesh_load (Some l)
  = (Listdir :: (Load <$> before) ++ [Load b], inl (LoadError b)).
Proof.
  intros Hsort Hbefore Hb. rewrite load_meshes_some, Hsort.
  rewrite for_each_app, load_loop_success by done.
  rewrite bind_unfold, for_each_cons, load_body_eq, Hb, bind_unfold.
  done.
Qed.

(** X3. When every file of the directory loads, every file is loaded
    exactly once, in sorted order; the link names of the resulting
    dictionary are exactly the names of the files without their extensions,
    and there are at most as many links as files. *)
Theorem loading_a_directory l :
  (∀ b, b ∈ l → is_Some (trimesh_load b)) →
  ∃ meshes,
    load_meshes trimesh_load (Some l)
      = (Listdir :: (Load <$> PyStr.sort l), inr meshes) ∧
    NoDup (Dict.keys meshes) ∧
    (∀ k, k ∈ Dict.keys meshes ↔ ∃ b, b ∈ l ∧ k = PyStr.splitext_root b) ∧
    (length meshes ≤ length l)%nat.
Proof.
  intros Hall.
  assert (∀ b, b ∈ PyStr.sort l → is_Some (trimesh_load b)) as Hall'.
  { intros b Hb. apply Hall. by apply elem_of_sort. }
  exists (foldl (insert_file trimesh_load) Dict.empty (PyStr.sort l)).
  assert (load_meshes trimesh_load (Some l)
          = (Listdir :: (Load <$> PyStr.sort l),
             inr (foldl (insert_file trimesh_load) Dict.empty (PyStr.sort l))))
    as Hload.
  { by rewrite load_meshes_some, load_loop_success. }
  split_and!; [done|..].
  - apply (load_meshes_keys trimesh_load l). by rewrite Hload.
  - intros k. rewrite keys_insert_files. split.
    + intros [[]%elem_of_nil|(b & Hb & _ & ->)].
      exists b. split; [by apply elem_of_sort|done].
    + intros (b & Hb & ->). right. exists b.
      split_and!; [by apply elem_of_sort|by apply Hall|done].
  - etrans; [apply length_insert_files|]. cbn [length Dict.empty].
    unfold PyStr.sort. by rewrite merge_sort_Permutation.
Qed.

(** X4. When several files have the same name without extension, the
    link of that name holds the mesh of the last of them in sorted order:
    the assignment of line 41 replaces the mesh loaded before. *)
Theorem last_file_of_a_name_wins l before b after m meshes :
  (load_meshes trimesh_load (Some l)).2 = inr meshes →
  PyStr.sort l = before ++ b :: after →
  trimesh_load b = Some m →
  (∀ b', b' ∈ after → PyStr.splitext_root b' ≠ PyStr.splitext_root b) →
  Dict.get (PyStr.splitext_root b) meshes = Some m.
Proof.
  rewrite load_meshes_some. cbn [snd].
  destruct (for_each _ _ _) as [t r] eqn:E. cbn [snd]. intros -> Hsort Hb Hafter.
  apply load_loop_result in E as (_ & -> & _).
  rewrite Hsort, foldl_app. cbn [foldl].
  rewrite get_insert_files_other by done.
  rewrite (insert_file_loaded _ b m Hb). apply get_set_eq.
Qed.

End Loading.

Lemma load_stops_at_first_bad_file_witness :
  load_meshes example_load (Some ["palm.dae"; "notes.txt"; "forearm.dae"])
  = ([Listdir; Load "forearm.dae"; Load "notes.txt"],
     inl (LoadError "notes.txt")).
Proof.
  apply (load_stops_at_first_bad_file example_load
           ["palm.dae"; "notes.txt"; "forearm.dae"]
           ["forearm.dae"] "notes.txt" ["palm.dae"]).
  - vm_compute. reflexivity.
  - intros b' ->%list_elem_of_singleton. by eexists.
  - reflexivity.
Defined.

Lemma loading_a_directory_witness :
  ∃ meshes,
    load_meshes example_load
      (Some ["palm.dae"; "forearm.stl"; "forearm.dae"])
      = (Listdir ::
           (Load <$> PyStr.sort ["palm.dae"; "forearm.stl"; "forearm.dae"]),
         inr meshes) ∧
    NoDup (Dict.keys meshes) ∧
    (∀ k, k ∈ Dict.keys meshes ↔
          ∃ b, b ∈ ["palm.dae"; "forearm.stl"; "forearm.dae"]
               ∧ k = PyStr.splitext_root b) ∧
    (length meshes ≤ 3)%nat.
Proof.
  apply (loading_a_directory example_load
           ["palm.dae"; "forearm.stl"; "forearm.dae"]).
  intros b Hb.
  apply elem_of_cons in Hb as [->|Hb]; [by eexists|].
  apply elem_of_cons in Hb as [->|Hb]; [by eexists|].
  apply list_elem_of_singleton in Hb as ->. by eexists.
Defined.

Lemma last_file_of_a_name_wins_witness :
  Dict.get "forearm"
    [("forearm", example_mesh 5); ("forearm.dae", example_mesh 3)]
  = Some (example_mesh 5).
Proof.
  apply (last_file_of_a_name_wins example_load
           ["forearm.dae"; "forearm.dae.stl"; "forearm.stl"]
           ["forearm.dae"; "forearm.dae.stl"] "forearm.stl" []
           (example_mesh 5)
           [("forearm", example_mesh 5); ("forearm.dae", example_mesh 3)]).
  - vm_compute. reflexivity.
  - vm_compute. reflexivity.
  - reflexivity.
  - by intros b' ?%elem_of_nil.
Defined.

(** ** The console *)

Lemma volume_body_eq k (m : Trimesh.t) tv (fv : option Q) :
  (print (MsgVolume k (Trimesh.volume m));;
   total_volume ←
     (if is_repeated k
      then print (MsgNote k);; mret (tv + 4 * Trimesh.volume m)%Q
      else mret (tv + Trimesh.volume m)%Q);
   mret (total_volume,
         if is_forearm k then Some (Trimesh.volume m) else fv))
  = (Print (MsgVolume k (Trimesh.volume m))
       :: (if is_repeated k then [Print (MsgNote k)] else []),
     inr (volume_step (tv, fv) (k, m))).
Proof.
  unfold volume_step, weighted_volume. cbn [fst snd].
  destruct (is_repeated k); reflexivity.
Qed.

Lemma for_each_volume_lines (d : Dict.t Trimesh.t) (acc : Q * option Q) :
  for_each d
    (λ e '(total_volume, forearm_volume),
       print (MsgVolume e.1 (Trimesh.volume e.2));;
       total_volume ←
         (if is_repeated e.1
          then print (MsgNote e.1);;
               mret (total_volume + 4 * Trimesh.volume e.2)%Q
          else mret (total_volume + Trimesh.volume e.2)%Q);
       mret (total_volume,
             if is_forearm e.1 then Some (Trimesh.volume e.2)
             else forearm_volume))
    acc = (volume_lines d, inr (foldl volume_step acc d)).
Proof.
  revert acc. induction d as [|[k m] d IH]; intros [tv fv]; [done|].
  rewrite for_each_cons. cbn [fst snd]. rewrite volume_body_eq, bind_unfold.
  rewrite IH. unfold volume_lines. rewrite fmap_cons. done.
Qed.

Lemma sum_volumes_eq (meshes : Dict.t Trimesh.t) :
  NoDup (Dict.keys meshes) →
  sum_volumes meshes = (volume_lines meshes, inr (volume_totals meshes)).
Proof.
  intros Hnd. unfold volume_totals.
  rewrite <- (for_each_volume_lines meshes (0%Q, None)).
  unfold sum_volumes.
  apply for_each_keys. intros k v [tv fv] Hin.
  unfold getitem. rewrite (get_elem_of k v) by done.
  rewrite bind_pure. done.
Qed.

(** X5. The loop of lines 47-56 prints one line per link, in the order of
    the dictionary, with the raw volume of the link (not multiplied by
    four), and one note after the line of every repeated link. *)
Theorem volume_report (meshes : Dict.t Trimesh.t) :
  NoDup (Dict.keys meshes) →
  (sum_volumes meshes).1
  = concat
      ((λ e, Print (MsgVolume e.1 (Trimesh.volume e.2))
             :: (if is_repeated e.1 then [Print (MsgNote e.1)] else []))
         <$> meshes).
Proof. intros Hnd. by rewrite sum_volumes_eq. Qed.

Lemma volume_report_witness :
  (sum_volumes scenario_meshes).1
  = [Print (MsgVolume "fingerfoo" (1 # 10)); Print (MsgNote "fingerfoo");
     Print (MsgVolume "forearm" 1); Print (MsgVolume "palm" (1 # 2))].
Proof.
  rewrite (volume_report scenario_meshes).
  - reflexivity.
  - apply (bool_decide_unpack _). vm_compute. exact I.
Defined.

Section Console.

Context (py_float : string → option Q).
Context (trimesh_load : string → option Trimesh.t).

(** X6. A first argument that is not a number ends the run with a value
    error before anything is printed; a first argument that is a positive
    number is the target mass of the run, and the arguments after it are
    ignored. *)
Theorem argument_outcomes prog arg rest listing :
  (py_float arg = None →
   main py_float trimesh_load (prog :: arg :: rest) listing
   = ([], inl ValueError)) ∧
  (∀ x, py_float arg = Some x → (0 < x)%Q →
     main py_float trimesh_load (prog :: arg :: rest) listing
     = (print (MsgEstimating x);;
        meshes ← load_meshes trimesh_load listing;
        estimate forearm_mass_redistribute_percentage x meshes)).
Proof.
  split.
  - intros Harg. unfold main. rewrite read_total_mass_eq, Harg.
    by rewrite bind_unfold.
  - intros x Harg Hx. unfold main. rewrite read_total_mass_eq, Harg.
    destruct (Qlt_le_dec 0 x) as [_|Hle].
    + by rewrite print_bind, !bind_unfold.
    + by apply Qle_not_lt in Hle.
Qed.

(** X7. On an empty mesh directory the run prints the target mass, lists
    the directory and fails on the division of line 59, where the total
    volume is still the float [0.0] of line 46: nothing is loaded, no volume
    or density is printed and no file is written. *)
Theorem empty_directory_fails argv total_mass :
  (read_total_mass py_float argv).2 = inr total_mass →
  main py_float trimesh_load argv (Some [])
  = ([Print (MsgEstimating total_mass); Listdir],
     inl (ZeroDivisionError AverageDensity)).
Proof.
  intros Hread. unfold main.
  destruct (read_total_mass py_float argv) as [t1 r1] eqn:Er.
  cbn [snd] in Hread. subst r1.
  apply read_total_mass_success in Er as ->.
  rewrite bind_unfold. cbn [fst snd]. rewrite load_meshes_some.
  reflexivity.
Qed.

(** X8. The log of a run that returns: the target mass, the listing of
    the directory, one load per file in sorted order, the volume lines,
    the average density (target mass over total volume), the recomputed
    total mass, the export of the document to the output file and the
    confirmation line, in this order and nothing else. *)
Theorem log_of_a_run_that_returns argv listing tr :
  main py_float trimesh_load argv listing = (tr, inr ()) →
  ∃ total_mass l meshes total_volume forearm_volume recomputed doc,
    listing = Some l ∧
    (read_total_mass py_float argv).2 = inr total_mass ∧
    (load_meshes trimesh_load listing).2 = inr meshes ∧
    (sum_volumes meshes).2 = inr (total_volume, Some forearm_volume) ∧
    tr = Print (MsgEstimating total_mass) :: Listdir
           :: (Load <$> PyStr.sort l) ++ volume_lines meshes
           ++ [Print (MsgAverageDensity (total_mass / total_volume));
               Print (MsgTotalMass recomputed);
               ExportXml output_file doc;
               Print (MsgWritten output_file)].
Proof.
  unfold main.
  intros (t1 & total_mass & t2 & Hread & Hrest & ->)%bind_inr_inv.
  apply bind_inr_inv in Hrest as (t3 & meshes & t4 & Hload & Hest & ->).
  pose proof (read_total_mass_success py_float _ _ _ Hread) as ->.
  destruct listing as [l|]; [|done].
  assert (NoDup (Dict.keys meshes)) as Hnd.
  { apply (load_meshes_keys trimesh_load l). by rewrite Hload. }
  pose proof Hload as Hload'. rewrite load_meshes_some in Hload'.
  destruct (for_each _ _ _) as [t r] eqn:E. cbn [fst snd] in Hload'.
  injection Hload' as <- ->. apply load_loop_result in E as (-> & _ & _).
  rewrite estimate_eq, redistribute_eq, sum_volumes_eq in Hest by done.
  cbn [fst snd] in Hest.
  destruct (volume_totals meshes) as [tv fvo] eqn:Etot. cbn [fst snd] in Hest.
  destruct (Qeq_bool tv 0); [done|].
  destruct fvo as [fv|]; [|done].
  destruct (assign_all _ _ _ _) as [e|meshes']; [done|].
  cbn [fst snd] in Hest. injection Hest as <-.
  eexists total_mass, l, meshes, tv, fv, _, _.
  split_and!; [done|by rewrite Hread|by rewrite Hload| |done].
  by rewrite sum_volumes_eq, Etot.
Qed.

End Console.

Lemma argument_outcomes_witness :
  main example_float example_load ["prog"; "heavy"] None
    = ([], inl ValueError) ∧
  main example_float example_load ["prog"; "4.2"; "ignored"] None
    = (print (MsgEstimating (42 # 10));;
       meshes ← load_meshes example_load None;
       estimate forearm_mass_redistribute_percentage (42 # 10) meshes).
Proof.
  split.
  - apply (proj1 (argument_outcomes example_float example_load
                    "prog" "heavy" [] None)).
    reflexivity.
  - apply (proj2 (argument_outcomes example_float example_load
                    "prog" "4.2" ["ignored"] None) (42 # 10)%Q);
      reflexivity.
Defined.

Lemma empty_directory_fails_witness :
  main example_float example_load ["prog"; "4.2"] (Some [])
  = ([Print (MsgEstimating (42 # 10)); Listdir],
     inl (ZeroDivisionError AverageDensity)).
Proof.
  apply (empty_directory_fails example_float example_load ["prog"; "4.2"]
           (42 # 10)%Q).
  reflexivity.
Defined.

Lemma log_of_a_run_that_returns_witness :
  ∃ total_mass l meshes total_volume forearm_volume recomputed doc,
    Some ["palm.dae"; "forearm.dae"; "fingerfoo.dae"] = Some l ∧
    (read_total_mass example_float ["prog"]).2 = inr total_mass ∧
    (load_meshes example_load
       (Some ["palm.dae"; "forearm.dae"; "fingerfoo.dae"])).2 = inr meshes ∧
    (sum_volumes meshes).2 = inr (total_volume, Some forearm_volume) ∧
    (main example_float example_load ["prog"]
       (Some ["palm.dae"; "forearm.dae"; "fingerfoo.dae"])).1
    = Print (MsgEstimating total_mass) :: Listdir
        :: (Load <$> PyStr.sort l) ++ volume_lines meshes
        ++ [Print (MsgAverageDensity (total_mass / total_volume));
            Print (MsgTotalMass recomputed);
            ExportXml output_file doc;
            Print (MsgWritten output_file)].
Proof.
  apply (log_of_a_run_that_returns example_float example_load ["prog"]
           (Some ["palm.dae"; "forearm.dae"; "fingerfoo.dae"])).
  vm_compute. reflexivity.
Defined.

(** ** The densities in the corner cases *)

Lemma other_links_raised f rho p (meshes : Dict.t Trimesh.t) k m :
  (k, m) ∈ with_densities f rho p meshes → is_forearm k = false →
  Trimesh.density m = (rho + (f / p - f) * rho)%Q.
Proof.
  unfold with_densities. intros Hin Hk.
  apply list_elem_of_fmap in Hin as ([k' m'] & [= -> ->] & _).
  cbn [fst snd Trimesh.set_density Trimesh.density].
  unfold density_for. by rewrite Hk.
Qed.

(** X9. With a positive target mass and total volume, a positive
    redistribution fraction and a share of the other links strictly between
    0 and 1, the density that the loop of lines 70-78 leaves on every link
    that is not forearm-named is strictly greater than the average
    density. *)
Theorem other_links_density_above_average f total_mass total_volume p
    (meshes meshes' : Dict.t Trimesh.t) mass inertia centre_of_mass :
  (0 < total_mass)%Q → (0 < total_volume)%Q → (0 < f)%Q →
  (0 < p)%Q → (p < 1)%Q →
  NoDup (Dict.keys meshes) →
  (estimate_links f (total_mass / total_volume) p meshes).2
    = inr (meshes', mass, inertia, centre_of_mass) →
  ∀ k m, (k, m) ∈ meshes' → is_forearm k = false →
    (total_mass / total_volume < Trimesh.density m)%Q.
Proof.
  intros HM Htv Hf Hp0 Hp1 Hnd Hrun k m Hin Hk.
  apply estimate_links_result in Hrun as ->; [|done].
  rewrite (other_links_raised _ _ _ _ _ _ Hin Hk).
  assert (0 < total_mass / total_volume)%Q as Havg.
  { apply Qlt_shift_div_l; [done|]. by rewrite Qmult_0_l. }
  assert (f < f / p)%Q as Hfp.
  { apply Qlt_shift_div_l; [done|]. nra. }
  nra.
Qed.

Lemma assign_all_forearm_only f rho p (d : Dict.t Trimesh.t) :
  (∀ k, k ∈ Dict.keys d → is_forearm k = true) →
  assign_all f rho p d = inr (with_densities f rho p d).
Proof.
  induction d as [|[k m] d IH]; intros Hall; [done|].
  cbn [assign_all]. unfold assigned_density at 1.
  rewrite (Hall k) by left. cbn [snd mret M_mret M_ret].
  rewrite IH by (intros k' Hk'; apply Hall; by right).
  unfold with_densities. rewrite fmap_cons. cbn [fst snd].
  unfold density_for at 2. by rewrite (Hall k) by left.
Qed.

Lemma weighted_sum_forearm_only (d : Dict.t Trimesh.t) :
  (∀ k, k ∈ Dict.keys d → is_forearm k = true) →
  (weighted_sum forearm_indicator d == weighted_sum (λ _, 1) d)%Q.
Proof.
  induction d as [|[k m] d IH]; intros Hall; [done|].
  unfold weighted_sum in *. cbn [foldr fst snd].
  rewrite IH by (intros k' Hk'; apply Hall; by right).
  unfold forearm_indicator. by rewrite (Hall k) by left.
Qed.

(** X10. When every link is forearm-named, the division of line 75 is
    never reached: for a non-empty dictionary with a non-zero total volume
    the estimation runs to completion, every link has the reduced density,
    and the recomputed total mass is (1 - fraction) times the target mass,
    not the target mass. *)
Theorem forearm_only_hand_loses_mass f total_mass (meshes : Dict.t Trimesh.t)
    total_volume forearm_volume :
  NoDup (Dict.keys meshes) →
  meshes ≠ [] →
  (∀ k, k ∈ Dict.keys meshes → is_forearm k = true) →
  (sum_volumes meshes).2 = inr (total_volume, forearm_volume) →
  ¬ (total_volume == 0)%Q →
  ∃ progress recomputed doc,
    estimate f total_mass meshes =
      (progress ++ [Print (MsgTotalMass recomputed);
                    ExportXml output_file doc;
                    Print (MsgWritten output_file)], inr ()) ∧
    (recomputed == (1 - f) * total_mass)%Q.
Proof.
  intros Hnd Hne Hall Hsum Htv.
  pose proof (sum_volumes_totals _ _ _ Hnd Hsum) as Htot.
  assert (∃ fv, forearm_volume = Some fv) as (fv & ->).
  { pose proof (forearm_volume_from (0%Q, None) meshes) as Hfv.
    fold (volume_totals meshes) in Hfv. rewrite Htot in Hfv. cbn [snd] in Hfv.
    destruct (last (forearm_links meshes)) as [e|] eqn:El; [by eexists|].
    apply last_None in El. exfalso. destruct meshes as [|[k m] d]; [done|].
    unfold forearm_links in El. rewrite filter_cons in El. cbn [fst] in El.
    rewrite decide_True in El; [done|]. apply Hall. left. }
  assert (Qeq_bool total_volume 0 = false) as Hb.
  { destruct (Qeq_bool total_volume 0) eqn:E; [|done].
    by apply Qeq_bool_eq in E. }
  rewrite estimate_eq, redistribute_eq, Htot by done. cbn [fst snd].
  rewrite Hb, assign_all_forearm_only by done. cbn [fst snd].
  eexists (_ ++ [_]), _, _. split.
  { rewrite <- app_assoc. reflexivity. }
  assert (weighted_sum (λ _, 1) meshes == total_volume)%Q as HT.
  { pose proof (total_volume_from (0%Q, None) meshes) as HT.
    fold (volume_totals meshes) in HT. rewrite Htot in HT.
    cbn [fst] in HT. rewrite HT. ring. }
  rewrite mass_sum_from, weighted_sum_density.
  rewrite weighted_sum_forearm_only, HT by done.
  generalize (f / (1 - fv / total_volume))%Q. intros q. field. done.
Qed.

Lemma other_links_density_above_average_witness :
  ∃ m,
    Dict.get "palm"
      (with_densities (1 # 2) ((42 # 10) / (19 # 10)) (9 # 19) scenario_meshes)
    = Some m ∧
    ((42 # 10) / (19 # 10) < Trimesh.density m)%Q.
Proof.
  set (d := with_densities (1 # 2) ((42 # 10) / (19 # 10)) (9 # 19)
              scenario_meshes).
  exists (Trimesh.set_density
            (density_for (1 # 2) ((42 # 10) / (19 # 10)) (9 # 19) "palm")
            (example_mesh (1 # 2))).
  split; [reflexivity|].
  refine (other_links_density_above_average (1 # 2) (42 # 10) (19 # 10)
            (9 # 19) scenario_meshes d
            (records d).1.1 (records d).1.2 (records d).2
            _ _ _ _ _ _ _ "palm" _ _ _).
  - reflexivity.
  - reflexivity.
  - reflexivity.
  - reflexivity.
  - reflexivity.
  - apply (bool_decide_unpack _). vm_compute. exact I.
  - rewrite estimate_links_eq
      by (apply (bool_decide_unpack _); vm_compute; exact I).
    rewrite assign_all_defined by reflexivity. reflexivity.
  - apply list_elem_of_further, list_elem_of_further, list_elem_of_here.
  - reflexivity.
Defined.

Lemma forearm_only_hand_loses_mass_witness :
  ∃ progress recomputed doc,
    estimate (1 # 2) (42 # 10) forearm_only_meshes =
      (progress ++ [Print (MsgTotalMass recomputed);
                    ExportXml output_file doc;
                    Print (MsgWritten output_file)], inr ()) ∧
    (recomputed == (1 - (1 # 2)) * (42 # 10))%Q.
Proof.
  apply (forearm_only_hand_loses_mass (1 # 2) (42 # 10) forearm_only_meshes
           (volume_totals forearm_only_meshes).1
           (volume_totals forearm_only_meshes).2).
  - apply (bool_decide_unpack _). vm_compute. exact I.
  - discriminate.
  - intros k Hk.
    apply elem_of_cons in Hk as [->|Hk]; [reflexivity|].
    apply list_elem_of_singleton in Hk as ->. reflexivity.
  - vm_compute. reflexivity.
  - vm_compute. discriminate.
Defined.

(** ** What the entries depend on *)

(** The entries read off the meshes at two target masses. *)
Lemma link_entries_scale f c total_mass total_volume p
    (meshes : Dict.t Trimesh.t) k l1 l2 :
  Dict.get k
    ((λ e, (e.1, link_entry e.2))
       <$> with_densities f (c * total_mass / total_volume) p meshes)
    = Some l1 →
  Dict.get k
    ((λ e, (e.1, link_entry e.2))
       <$> with_densities f (total_mass / total_volume) p meshes)
    = Some l2 →
  (Sdf.mass l1 == c * Sdf.mass l2)%Q ∧
  (Sdf.ixx (Sdf.inertia l1) == c * Sdf.ixx (Sdf.inertia l2))%Q ∧
  (Sdf.iyy (Sdf.inertia l1) == c * Sdf.iyy (Sdf.inertia l2))%Q ∧
  (Sdf.izz (Sdf.inertia l1) == c * Sdf.izz (Sdf.inertia l2))%Q ∧
  (Sdf.ixy (Sdf.inertia l1) == c * Sdf.ixy (Sdf.inertia l2))%Q ∧
  (Sdf.ixz (Sdf.inertia l1) == c * Sdf.ixz (Sdf.inertia l2))%Q ∧
  (Sdf.iyz (Sdf.inertia l1) == c * Sdf.iyz (Sdf.inertia l2))%Q ∧
  Sdf.pose l1 = Sdf.pose l2.
Proof.
  unfold with_densities. rewrite <- !list_fmap_compose.
  rewrite (get_fmap
             (λ k m, link_entry
                       (Trimesh.set_density
                          (density_for f (c * total_mass / total_volume) p k)
                          m))).
  rewrite (get_fmap
             (λ k m, link_entry
                       (Trimesh.set_density
                          (density_for f (total_mass / total_volume) p k)
                          m))).
  destruct (Dict.get k meshes) as [m|]; [|done].
  intros [= <-] [= <-].
  unfold link_entry, Trimesh.moment_inertia, Trimesh.mass, density_for.
  cbn [Trimesh.set_density Trimesh.unit_inertia Trimesh.center_mass
       Trimesh.density Trimesh.volume].
  destruct (Trimesh.unit_inertia m)
    as [[[[a00 a01] a02] [[a10 a11] a12]] [[a20 a21] a22]].
  destruct (Trimesh.center_mass m) as [[c0 c1] c2].
  cbn [Trimesh.scale3 Sdf.mass Sdf.inertia Sdf.pose Sdf.ixx Sdf.iyy Sdf.izz
       Sdf.ixy Sdf.ixz Sdf.iyz].
  destruct (is_forearm k); split_and!; try reflexivity;
    unfold Qdiv; ring.
Qed.

Lemma get_of_key {V} (k : string) (d : Dict.t V) :
  k ∈ Dict.keys d → is_Some (Dict.get k d).
Proof.
  induction d as [|[k' v] d IH]; intros Hin.
  { by apply elem_of_nil in Hin. }
  cbn [Dict.get]. destruct (String.eqb_spec k k'); [by eexists|].
  apply IH. apply elem_of_cons in Hin as [->|Hin]; done.
Qed.

(** X12. The documents of two runs on the same meshes, one with a target
    mass and one with [c] times that target mass: both runs export one
    model with the links of the meshes, and for every link the mass and the
    six inertia components of the second document are [c] times those of
    the first, while the pose is the same. *)
Theorem exported_entries_scale_with_target_mass f c total_mass
    (meshes : Dict.t Trimesh.t) tr1 tr2 :
  NoDup (Dict.keys meshes) →
  estimate f total_mass meshes = (tr1, inr ()) →
  estimate f (c * total_mass) meshes = (tr2, inr ()) →
  ∃ doc1 doc2 model1 model2,
    exports tr1 = [(output_file, doc1)] ∧
    exports tr2 = [(output_file, doc2)] ∧
    Sdf.models doc1 = [model1] ∧ Sdf.models doc2 = [model2] ∧
    (Sdf.links model1).*1 = Dict.keys meshes ∧
    (Sdf.links model2).*1 = Dict.keys meshes ∧
    ∀ k l1 l2,
      Dict.get k (Sdf.links model1) = Some l1 →
      Dict.get k (Sdf.links model2) = Some l2 →
      (Sdf.mass l2 == c * Sdf.mass l1)%Q ∧
      (Sdf.ixx (Sdf.inertia l2) == c * Sdf.ixx (Sdf.inertia l1))%Q ∧
      (Sdf.iyy (Sdf.inertia l2) == c * Sdf.iyy (Sdf.inertia l1))%Q ∧
      (Sdf.izz (Sdf.inertia l2) == c * Sdf.izz (Sdf.inertia l1))%Q ∧
      (Sdf.ixy (Sdf.inertia l2) == c * Sdf.ixy (Sdf.inertia l1))%Q ∧
      (Sdf.ixz (Sdf.inertia l2) == c * Sdf.ixz (Sdf.inertia l1))%Q ∧
      (Sdf.iyz (Sdf.inertia l2) == c * Sdf.iyz (Sdf.inertia l1))%Q ∧
      Sdf.pose l2 = Sdf.pose l1.
Proof.
  intros Hnd Hrun1 Hrun2.
  pose proof (estimate_all_or_nothing f total_mass meshes Hnd) as H1.
  pose proof (estimate_all_or_nothing f (c * total_mass) meshes Hnd) as H2.
  rewrite Hrun1 in H1. rewrite Hrun2 in H2. cbn [all_or_nothing] in H1, H2.
  destruct H1 as (doc1 & Hex1 & tv & fv & Hsum & ->).
  destruct H2 as (doc2 & Hex2 & tv' & fv' & Hsum' & ->).
  rewrite Hsum in Hsum'. injection Hsum' as <- <-.
  eexists _, _, _, _. split_and!; [exact Hex1|exact Hex2|done|done|..].
  - cbn [Sdf.links]. by rewrite links_of_document, keys_with_densities.
  - cbn [Sdf.links]. by rewrite links_of_document, keys_with_densities.
  - cbn [Sdf.links]. intros k l1 l2 Hl1 Hl2.
    apply (link_entries_scale f c total_mass tv (1 - fv / tv) meshes k);
      assumption.
Qed.

Lemma exported_entries_scale_with_target_mass_witness :
  ∃ doc1 doc2 model1 model2 l1 l2,
    exports (estimate (1 # 2) (42 # 10) scenario_meshes).1
      = [(output_file, doc1)] ∧
    exports (estimate (1 # 2) (2 * (42 # 10)) scenario_meshes).1
      = [(output_file, doc2)] ∧
    Sdf.models doc1 = [model1] ∧ Sdf.models doc2 = [model2] ∧
    Dict.get "palm" (Sdf.links model1) = Some l1 ∧
    Dict.get "palm" (Sdf.links model2) = Some l2 ∧
    (Sdf.mass l2 == 2 * Sdf.mass l1)%Q.
Proof.
  assert (NoDup (Dict.keys scenario_meshes)) as Hnd.
  { apply (bool_decide_unpack _). vm_compute. exact I. }
  destruct (exported_entries_scale_with_target_mass (1 # 2) 2 (42 # 10)
              scenario_meshes
              (estimate (1 # 2) (42 # 10) scenario_meshes).1
              (estimate (1 # 2) (2 * (42 # 10)) scenario_meshes).1 Hnd)
    as (doc1 & doc2 & model1 & model2 & Hex1 & Hex2 & Hm1 & Hm2
        & Hk1 & Hk2 & Hscale).
  { vm_compute. reflexivity. }
  { vm_compute. reflexivity. }
  destruct (get_of_key "palm" (Sdf.links model1)) as [l1 Hl1].
  { unfold Dict.keys. rewrite Hk1.
    apply list_elem_of_further, list_elem_of_further, list_elem_of_here. }
  destruct (get_of_key "palm" (Sdf.links model2)) as [l2 Hl2].
  { unfold Dict.keys. rewrite Hk2.
    apply list_elem_of_further, list_elem_of_further, list_elem_of_here. }
  exists doc1, doc2, model1, model2, l1, l2.
  split_and!; [done..|]. exact (proj1 (Hscale "palm" l1 l2 Hl1 Hl2)).
Defined.

(** X13. The entry of a link reads the inertia tensor on and above its
    diagonal only: two tensors that differ below the diagonal (components
    [1][0], [2][0] and [2][1]) give the same entry. *)
Theorem make_link_ignores_lower_triangle (mass : gmap string Q)
    (inertia1 inertia2 : gmap string Trimesh.mat3)
    (centre_of_mass : gmap string Trimesh.vec3) k
    a00 a01 a02 a10 a11 a12 a20 a21 a22 b10 b20 b21 :
  inertia1 !! k
    = Some (((a00, a01, a02), (a10, a11, a12), (a20, a21, a22)) : Trimesh.mat3) →
  inertia2 !! k
    = Some (((a00, a01, a02), (b10, a11, a12), (b20, b21, a22)) : Trimesh.mat3) →
  make_link mass inertia1 centre_of_mass k
  = make_link mass inertia2 centre_of_mass k.
Proof.
  intros H1 H2.
  assert (∀ i j, (i ≤ j)%nat →
            tensor_entry inertia1 k i j = tensor_entry inertia2 k i j) as Hup.
  { intros i j Hij. unfold tensor_entry, lookup_item.
    rewrite H1, H2, !bind_pure.
    destruct i as [|[|[|i]]], j as [|[|[|j]]]; try lia; reflexivity. }
  unfold make_link. cbv zeta. apply bind_ext. intros m.
  rewrite !Hup by lia. reflexivity.
Qed.

Lemma make_link_ignores_lower_triangle_witness :
  make_link {[ "palm" := 1%Q ]}
    {[ "palm" := ((2, 0, 1), (0, 3, 0), (1, 0, 4))%Q ]}
    {[ "palm" := (0, 0, 0)%Q ]} "palm"
  = make_link {[ "palm" := 1%Q ]}
      {[ "palm" := ((2, 0, 1), (7, 3, 0), (8, 9, 4))%Q ]}
      {[ "palm" := (0, 0, 0)%Q ]} "palm".
Proof.
  apply (make_link_ignores_lower_triangle _ _ _ _ "palm"
           2 0 1 0 3 0 1 0 4 7 8 9)%Q; apply lookup_singleton_eq.
Defined.

Lemma volume_lines_redensified (g : string → Trimesh.t → Q)
    (d : Dict.t Trimesh.t) :
  volume_lines ((λ e, (e.1, Trimesh.set_density (g e.1 e.2) e.2)) <$> d)
  = volume_lines d.
Proof.
  unfold volume_lines. rewrite <- list_fmap_compose. reflexivity.
Qed.

Lemma volume_totals_redensified (g : string → Trimesh.t → Q)
    (d : Dict.t Trimesh.t) acc :
  foldl volume_step acc
    ((λ e, (e.1, Trimesh.set_density (g e.1 e.2) e.2)) <$> d)
  = foldl volume_step acc d.
Proof.
  revert acc. induction d as [|[k m] d IH]; intros acc; [done|].
  rewrite fmap_cons. cbn [foldl]. by rewrite IH.
Qed.

Lemma assign_all_redensified f rho p (g : string → Trimesh.t → Q)
    (d : Dict.t Trimesh.t) :
  assign_all f rho p
    ((λ e, (e.1, Trimesh.set_density (g e.1 e.2) e.2)) <$> d)
  = assign_all f rho p d.
Proof.
  induction d as [|[k m] d IH]; [done|].
  rewrite fmap_cons. cbn [assign_all fst snd]. rewrite IH.
  destruct (assigned_density f rho p k).2; [done|].
  by destruct (assign_all f rho p d).
Qed.

(** X14. The density that a mesh has when it is loaded plays no part: the
    estimation prints, returns and writes the same whatever the initial
    densities of the meshes. *)
Theorem initial_density_is_irrelevant f total_mass
    (g : string → Trimesh.t → Q) (meshes : Dict.t Trimesh.t) :
  NoDup (Dict.keys meshes) →
  estimate f total_mass
    ((λ e, (e.1, Trimesh.set_density (g e.1 e.2) e.2)) <$> meshes)
  = estimate f total_mass meshes.
Proof.
  intros Hnd.
  assert (NoDup (Dict.keys
            ((λ e : string * Trimesh.t,
                (e.1, Trimesh.set_density (g e.1 e.2) e.2)) <$> meshes)))
    as Hnd'.
  { unfold Dict.keys. rewrite <- list_fmap_compose. exact Hnd. }
  rewrite !estimate_eq, !redistribute_eq, !sum_volumes_eq by done.
  unfold volume_totals.
  rewrite volume_totals_redensified, volume_lines_redensified.
  destruct (Qeq_bool _ 0); [done|].
  destruct (foldl volume_step (0%Q, None) meshes).2 as [fv|]; [|done].
  by rewrite assign_all_redensified.
Qed.

Lemma initial_density_is_irrelevant_witness :
  estimate (1 # 2) (42 # 10)
    ((λ e, (e.1, Trimesh.set_density 7 e.2)) <$> scenario_meshes)
  = estimate (1 # 2) (42 # 10) scenario_meshes.
Proof.
  apply (initial_density_is_irrelevant (1 # 2) (42 # 10) (λ _ _, 7%Q)
           scenario_meshes).
  apply (bool_decide_unpack _). vm_compute. exact I.
Defined.

(** ** Names *)

Lemma prefix_iff (a s : string) :
  String.prefix a s = true ↔ ∃ post, s = a +:+ post.
Proof.
  revert s. induction a as [|c a IH]; intros s.
  - split; [intros _; by exists s|intros _; by destruct s].
  - destruct s as [|b s]; cbn [String.prefix String.append].
    { split; [done|]. by intros (post & [=]). }
    destruct (ascii_dec c b) as [->|Hne].
    + rewrite IH. split.
      * intros (post & ->). by exists post.
      * intros (post & [= ->]). by exists post.
    + split; [done|]. intros (post & [= ? _]). done.
Qed.

Lemma contains_iff (sub s : string) :
  PyStr.contains sub s = true ↔ ∃ pre post, s = pre +:+ sub +:+ post.
Proof.
  induction s as [|c s IH]; cbn [PyStr.contains].
  - rewrite orb_false_r, prefix_iff. split.
    + intros (post & ->). by exists "", post.
    + intros ([|c pre] & post & H); [by exists post|done].
  - rewrite orb_true_iff, prefix_iff, IH. split.
    + intros [(post & ->)|(pre & post & ->)].
      * by exists "", post.
      * by exists (String c pre), post.
    + intros ([|c' pre] & post & H).
      * left. by exists post.
      * right. injection H as -> ->. by exists pre, post.
Qed.

(** X15. The classification of the links by name: a link is repeated
    exactly when its name has "finger" or "knuckle" as a substring, and it
    is treated as the forearm exactly when its name has "forearm" as a
    substring, wherever the substring stands in the name. *)
Theorem links_are_classified_by_substring (link_name : string) :
  (is_repeated link_name = true ↔
     (∃ pre post, link_name = pre +:+ "finger" +:+ post) ∨
     (∃ pre post, link_name = pre +:+ "knuckle" +:+ post)) ∧
  (is_forearm link_name = true ↔
     ∃ pre post, link_name = pre +:+ "forearm" +:+ post).
Proof.
  unfold is_repeated, is_forearm.
  by rewrite orb_true_iff, !contains_iff.
Qed.

Lemma contains_dot_cons c s :
  PyStr.contains "." (String c s)
  = Ascii.eqb c "."%char || PyStr.contains "." s.
Proof.
  cbn [PyStr.contains String.prefix]. f_equal.
  destruct (ascii_dec "."%char c) as [<-|Hne].
  - by destruct s.
  - symmetry. apply Ascii.eqb_neq. congruence.
Qed.

Lemma rfind_dot_none s :
  PyStr.contains "." s = false → PyStr.rfind_dot s = None.
Proof.
  induction s as [|c s IH]; [done|].
  rewrite contains_dot_cons. intros [Hc Hs]%orb_false_iff.
  cbn [PyStr.rfind_dot]. by rewrite IH, Hc.
Qed.

Lemma rfind_dot_append stem ext :
  PyStr.contains "." ext = false →
  PyStr.rfind_dot (stem +:+ "." +:+ ext) = Some (String.length stem).
Proof.
  intros Hext. induction stem as [|c stem IH].
  - change ("" +:+ "." +:+ ext) with (String "."%char ext).
    cbn [PyStr.rfind_dot String.length].
    rewrite rfind_dot_none by done. reflexivity.
  - change (String c stem +:+ "." +:+ ext)
      with (String c (stem +:+ "." +:+ ext)).
    cbn [PyStr.rfind_dot String.length]. by rewrite IH.
Qed.

Lemma substring_append stem rest :
  String.substring 0 (String.length stem) (stem +:+ rest) = stem.
Proof.
  induction stem as [|c stem IH].
  - by destruct rest.
  - change (String c stem +:+ rest) with (String c (stem +:+ rest)).
    cbn [String.length String.substring]. by rewrite IH.
Qed.

(** X16. The link name derived from a file name on line 39: a name without
    a dot is kept; a name that begins with a character other than a dot and
    ends with an extension (a dot followed by characters without a dot)
    loses that extension and nothing more; a name made of one leading dot
    and characters without a dot is kept whole. *)
Theorem link_name_of_a_file :
  (∀ name, PyStr.contains "." name = false →
           PyStr.splitext_root name = name) ∧
  (∀ c stem ext,
     c ≠ "."%char → PyStr.contains "." ext = false →
     PyStr.splitext_root (String c stem +:+ "." +:+ ext) = String c stem) ∧
  (∀ rest, PyStr.contains "." rest = false →
           PyStr.splitext_root ("." +:+ rest) = "." +:+ rest).
Proof.
  split_and!.
  - intros name Hno. unfold PyStr.splitext_root. by rewrite rfind_dot_none.
  - intros c stem ext Hc Hext. unfold PyStr.splitext_root.
    rewrite rfind_dot_append by done.
    change (String c stem +:+ "." +:+ ext)
      with (String c (stem +:+ "." +:+ ext)).
    cbn [String.length PyStr.leading_dots].
    apply Ascii.eqb_neq in Hc. rewrite Hc. cbn [andb].
    apply (substring_append (String c stem)).
  - intros rest Hrest. unfold PyStr.splitext_root.
    change ("." +:+ rest) with ("" +:+ "." +:+ rest).
    by rewrite rfind_dot_append.
Qed.

Lemma link_name_of_a_file_witness :
  PyStr.splitext_root "forearm" = "forearm" ∧
  PyStr.splitext_root "lfknuckle.tar.gz" = "lfknuckle.tar" ∧
  PyStr.splitext_root ".hidden" = ".hidden".
Proof.
  destruct link_name_of_a_file as (Hplain & Hext & Hhidden).
  split_and!.
  - apply (Hplain "forearm"). reflexivity.
  - apply (Hext "l"%char "fknuckle.tar" "gz"); [discriminate|reflexivity].
  - apply (Hhidden "hidden"). reflexivity.
Defined.

Section Order.

Context (trimesh_load : string → option Trimesh.t).

Lemma keys_insert_fresh l (d : Dict.t Trimesh.t) :
  (∀ b, b ∈ l → is_Some (trimesh_load b)) →
  NoDup (Dict.keys d ++ (PyStr.splitext_root <$> l)) →
  Dict.keys (foldl (insert_file trimesh_load) d l)
  = Dict.keys d ++ (PyStr.splitext_root <$> l).
Proof.
  revert d. induction l as [|b l IH]; intros d Hall Hnd.
  { cbn [foldl fmap list_fmap]. by rewrite app_nil_r. }
  destruct (Hall b) as [m Hb]; [left|].
  cbn [foldl]. rewrite (insert_file_loaded trimesh_load d b m Hb).
  rewrite fmap_cons in Hnd. rewrite fmap_cons.
  assert (PyStr.splitext_root b ∉ Dict.keys d) as Hfresh.
  { apply NoDup_app in Hnd as (_ & Hd & _). intros Hin.
    apply (Hd _ Hin). left. }
  rewrite IH.
  - rewrite keys_set, decide_False by done. by rewrite <- app_assoc.
  - intros b' Hb'. apply Hall. by right.
  - rewrite keys_set, decide_False by done. by rewrite <- app_assoc.
Qed.

(** X17. When every file loads and no two files have the same name without
    extension, there is exactly one link per file and the links stand in
    the dictionary in the order of the sorted file names. *)
Theorem links_follow_the_sorted_files l :
  (∀ b, b ∈ l → is_Some (trimesh_load b)) →
  NoDup (PyStr.splitext_root <$> l) →
  ∃ meshes,
    (load_meshes trimesh_load (Some l)).2 = inr meshes ∧
    Dict.keys meshes = PyStr.splitext_root <$> PyStr.sort l ∧
    length meshes = length l.
Proof.
  intros Hall Hnd.
  assert (∀ b, b ∈ PyStr.sort l → is_Some (trimesh_load b)) as Hall'.
  { intros b Hb. apply Hall. by apply elem_of_sort. }
  assert (PyStr.sort l ≡ₚ l) as Hperm by apply merge_sort_Permutation.
  assert (Dict.keys (foldl (insert_file trimesh_load) Dict.empty (PyStr.sort l))
          = PyStr.splitext_root <$> PyStr.sort l) as Hkeys.
  { rewrite keys_insert_fresh; [done|done|]. cbn [Dict.keys Dict.empty app fmap list_fmap].
    by rewrite Hperm. }
  exists (foldl (insert_file trimesh_load) Dict.empty (PyStr.sort l)).
  split_and!.
  - by rewrite load_meshes_some, load_loop_success.
  - done.
  - rewrite <- (length_fmap fst), <- (length_fmap PyStr.splitext_root l).
    fold (Dict.keys (foldl (insert_file trimesh_load) Dict.empty (PyStr.sort l))).
    by rewrite Hkeys, Hperm.
Qed.

End Order.

Lemma links_follow_the_sorted_files_witness :
  ∃ meshes,
    (load_meshes example_load
       (Some ["palm.dae"; "forearm.dae"; "fingerfoo.dae"])).2 = inr meshes ∧
    Dict.keys meshes
      = PyStr.splitext_root
          <$> PyStr.sort ["palm.dae"; "forearm.dae"; "fingerfoo.dae"] ∧
    length meshes = 3%nat.
Proof.
  apply (links_follow_the_sorted_files example_load
           ["palm.dae"; "forearm.dae"; "fingerfoo.dae"]).
  - intros b Hb.
    apply elem_of_cons in Hb as [->|Hb]; [by eexists|].
    apply elem_of_cons in Hb as [->|Hb]; [by eexists|].
    apply list_elem_of_singleton in Hb as ->. by eexists.
  - apply (bool_decide_unpack _). vm_compute. exact I.
Defined.
